(** * Manualsscan: title extraction and document classification

    A shallow embedding of [extraction_utils.py] and of the confidence
    logic of [app.py], and the properties of the specification settled
    against it.

    Conventions of the embedding.
    - A Python [str] is a list of Unicode code points, [list N].  String
      constants of the source are written as Rocq strings and converted by
      [py].
    - What the Python runtime knows about code points outside ASCII (the
      character classes, the case mappings), the NFKD decomposition and
      the two [pathlib] accessors are the fields of the class [Runtime].
      Of NFKD only one law is used: it leaves ASCII text as it is.  On
      ASCII characters the classes and the case mappings are computed by
      the definitions of this file and do not consult the class.
    - A regular expression of the source is a term of [re], run by a
      backtracking matcher that follows the search order of Python's
      [re] module (leftmost, alternatives in order, greedy repetitions).
    - A comparison of an alpha ratio with a decimal constant is the
      comparison of the two fractions, cross-multiplied over the naturals.
    - The [while True] loop of [clean_manual_name] takes a number of
      passes it may use; [None] means that the loop has not stopped
      within them. *)

From Stdlib Require Import List NArith Ascii String Bool Arith Lia.
From stdpp Require Import base gmap.
Import ListNotations.
Local Open Scope N_scope.

(** ** Strings *)

Abbreviation str := (list N).

Definition py (s : string) : str := map N_of_ascii (list_ascii_of_string s).

Definition chr (a : ascii) : N := N_of_ascii a.

Definition is_ascii (c : N) : bool := c <? 128.

(** The runtime's tables; the fields [uni_*] are asked about code points
    from 128 on only. *)
Class Runtime := {
  nfkd : str -> str;
  uni_isspace : N -> bool;
  uni_isalpha : N -> bool;
  uni_isword : N -> bool;
  uni_isdigit : N -> bool;
  uni_isupper : N -> bool;
  uni_islower : N -> bool;
  uni_upper : N -> str;
  uni_lower : N -> str;
  uni_fold : N -> N;
  path_name : str -> str;
  path_stem : str -> str;
  nfkd_ascii : forall s, forallb is_ascii s = true -> nfkd s = s
}.

Definition in_range (lo hi c : N) : bool := (lo <=? c) && (c <=? hi).

Definition ascii_isupper (c : N) : bool := in_range 65 90 c.
Definition ascii_islower (c : N) : bool := in_range 97 122 c.
Definition ascii_isalpha (c : N) : bool := ascii_isupper c || ascii_islower c.
Definition ascii_isdigit (c : N) : bool := in_range 48 57 c.
Definition ascii_isspace (c : N) : bool :=
  in_range 9 13 c || in_range 28 31 c || (c =? 32).
Definition ascii_isword (c : N) : bool :=
  ascii_isalpha c || ascii_isdigit c || (c =? 95).
Definition ascii_upper (c : N) : N := if ascii_islower c then c - 32 else c.
Definition ascii_lower (c : N) : N := if ascii_isupper c then c + 32 else c.

Fixpoint str_eqb (a b : str) : bool :=
  match a, b with
  | [], [] => true
  | x :: a', y :: b' => (x =? y) && str_eqb a' b'
  | _, _ => false
  end.

Fixpoint startswith (p s : str) : bool :=
  match p, s with
  | [], _ => true
  | x :: p', y :: s' => (x =? y) && startswith p' s'
  | _ :: _, [] => false
  end.

(** [s.find(sub)]: the least index at which [sub] occurs. *)
Fixpoint find (sub s : str) : option nat :=
  if startswith sub s then Some O
  else match s with
       | [] => None
       | _ :: s' => option_map S (find sub s')
       end.

(** [sub in s] *)
Definition contains (sub s : str) : bool :=
  match find sub s with Some _ => true | None => false end.

Definition str_in (s : str) (l : list str) : bool := existsb (str_eqb s) l.

(** [any(k in s for k in l)] *)
Definition any_in (l : list str) (s : str) : bool :=
  existsb (fun k => contains k s) l.

Fixpoint join (sep : str) (l : list str) : str :=
  match l with
  | [] => []
  | [x] => x
  | x :: l' => x ++ sep ++ join sep l'
  end.

(** [s.replace(a, b)] for one-character [a] and [b]. *)
Definition replace_char (a b : N) (s : str) : str :=
  map (fun c => if c =? a then b else c) s.

Section WithRuntime.
Context {R : Runtime}.

Definition isspace (c : N) : bool :=
  if is_ascii c then ascii_isspace c else uni_isspace c.
Definition isalpha (c : N) : bool :=
  if is_ascii c then ascii_isalpha c else uni_isalpha c.
Definition isword (c : N) : bool :=
  if is_ascii c then ascii_isword c else uni_isword c.
Definition isdigit (c : N) : bool :=
  if is_ascii c then ascii_isdigit c else uni_isdigit c.
Definition isupper_c (c : N) : bool :=
  if is_ascii c then ascii_isupper c else uni_isupper c.
Definition islower_c (c : N) : bool :=
  if is_ascii c then ascii_islower c else uni_islower c.
Definition upper_c (c : N) : str :=
  if is_ascii c then [ascii_upper c] else uni_upper c.
Definition lower_c (c : N) : str :=
  if is_ascii c then [ascii_lower c] else uni_lower c.
(** The representative of a code point under [re.IGNORECASE]. *)
Definition fold_c (c : N) : N :=
  if is_ascii c then ascii_lower c else uni_fold c.

Definition upper (s : str) : str := flat_map upper_c s.
Definition lower (s : str) : str := flat_map lower_c s.

(** [s.isupper()]: some cased character, and no lower-case one. *)
Definition isupper (s : str) : bool :=
  existsb isupper_c s && negb (existsb islower_c s).

(** [s.isalpha()] *)
Definition str_isalpha (s : str) : bool :=
  match s with [] => false | _ => forallb isalpha s end.

(** [s.capitalize()] *)
Definition capitalize (s : str) : str :=
  match s with
  | [] => []
  | c :: s' => upper_c c ++ lower s'
  end.

Fixpoint lstrip_by (p : N -> bool) (s : str) : str :=
  match s with
  | c :: s' => if p c then lstrip_by p s' else s
  | [] => []
  end.

Definition rstrip_by (p : N -> bool) (s : str) : str :=
  rev (lstrip_by p (rev s)).

Definition strip_by (p : N -> bool) (s : str) : str :=
  rstrip_by p (lstrip_by p s).

(** [s.strip()] *)
Definition strip (s : str) : str := strip_by isspace s.

(** [s.strip(chars)] *)
Definition strip_chars (chars : str) (s : str) : str :=
  strip_by (fun c => existsb (N.eqb c) chars) s.

(** [s.split(sep)] for a one-character separator: empty pieces are kept. *)
Fixpoint split_on (sep : N) (s : str) : list str :=
  match s with
  | [] => [[]]
  | c :: s' =>
      if c =? sep then [] :: split_on sep s'
      else match split_on sep s' with
           | w :: ws => (c :: w) :: ws
           | [] => [[c]]
           end
  end.

(** [s.split()]: the maximal runs of characters that are not white space. *)
Fixpoint split_ws_aux (cur : str) (s : str) : list str :=
  match s with
  | [] => match cur with [] => [] | _ => [rev cur] end
  | c :: s' =>
      if isspace c
      then match cur with
           | [] => split_ws_aux [] s'
           | _ => rev cur :: split_ws_aux [] s'
           end
      else split_ws_aux (c :: cur) s'
  end.

Definition split (s : str) : list str := split_ws_aux [] s.

(** ** Regular expressions

    The fragment of Python's [re] syntax that the source uses.  [Rep r lo hi]
    is the greedy repetition [r{lo,hi}]; [Grp i r] is the [i]-th capturing
    group. *)

Inductive citem :=
| ILit (a : ascii)
| IRange (lo hi : ascii)
| ICode (n : N)
| ISpace
| IWord
| INonWord
| IDigit.

Inductive re :=
| Eps
| Lit (a : ascii)
| Any
| Cls (l : list citem)
| NCls (l : list citem)
| Seq (r1 r2 : re)
| Alt (r1 r2 : re)
| Rep (r : re) (lo : nat) (hi : option nat)
| Bol
| Eol
| Wb
| Grp (i : nat) (r : re).

Definition Star (r : re) : re := Rep r 0 None.
Definition Plus (r : re) : re := Rep r 1 None.
Definition Opt (r : re) : re := Rep r 0 (Some 1%nat).

Definition seqs (l : list re) : re := fold_right Seq Eps l.

Fixpoint alts (l : list re) : re :=
  match l with
  | [] => NCls [IWord; INonWord]
  | [r] => r
  | r :: l' => Alt r (alts l')
  end.

(** The literal text [s]. *)
Definition lits (s : string) : re := seqs (map Lit (list_ascii_of_string s)).

(** A position of the matcher: the character before it, the text from it
    on, its index, and the groups closed so far. *)
Record mstate := MState {
  st_prev : option N;
  st_rest : str;
  st_pos : nat;
  st_caps : list (nat * (nat * nat))
}.

Definition item_match (ic : bool) (i : citem) (c : N) : bool :=
  match i with
  | ILit a => if ic then fold_c c =? fold_c (chr a) else c =? chr a
  | ICode n => if ic then fold_c c =? fold_c n else c =? n
  | IRange lo hi =>
      in_range (chr lo) (chr hi) c
      || (ic && (in_range (chr lo) (chr hi) (fold_c c)
                 || in_range (chr lo) (chr hi) (ascii_upper (fold_c c))))
  | ISpace => isspace c
  | IWord => isword c
  | INonWord => negb (isword c)
  | IDigit => isdigit c
  end.

Definition cls_match (ic : bool) (l : list citem) (c : N) : bool :=
  existsb (fun i => item_match ic i c) l.

Definition one (p : N -> bool) (st : mstate)
    (k : mstate -> option mstate) : option mstate :=
  match st_rest st with
  | c :: s' =>
      if p c then k (MState (Some c) s' (S (st_pos st)) (st_caps st)) else None
  | [] => None
  end.

Definition word_opt (o : option N) : bool :=
  match o with Some c => isword c | None => false end.

Definition at_wb (st : mstate) : bool :=
  xorb (word_opt (st_prev st)) (word_opt (head (st_rest st))).

Definition at_bol (st : mstate) : bool :=
  match st_prev st with None => true | Some _ => false end.

Definition at_eol (st : mstate) : bool :=
  match st_rest st with
  | [] => true
  | [c] => c =? 10
  | _ => false
  end.

Definition set_cap (i a b : nat) (st : mstate) : mstate :=
  MState (st_prev st) (st_rest st) (st_pos st) ((i, (a, b)) :: st_caps st).

(** The greedy repetition of a matcher [m]: one more round of [m] that
    moves on is tried first, and the continuation after it; [fuel] bounds
    the rounds. *)
Fixpoint rep_loop (m : mstate -> (mstate -> option mstate) -> option mstate)
    (k : mstate -> option mstate) (fuel lo : nat) (hi : option nat)
    (st : mstate) {struct fuel} : option mstate :=
  match fuel with
  | O => None
  | S fuel' =>
      let more :=
        match hi with
        | Some O => None
        | _ =>
            m st (fun st' =>
              if Nat.ltb (st_pos st) (st_pos st')
              then rep_loop m k fuel' (Nat.pred lo) (option_map Nat.pred hi) st'
              else None)
        end in
      match more with
      | Some x => Some x
      | None => match lo with O => k st | S _ => None end
      end
  end.

Fixpoint rmatch (ic : bool) (r : re) (st : mstate)
    (k : mstate -> option mstate) {struct r} : option mstate :=
  match r with
  | Eps => k st
  | Lit a => one (item_match ic (ILit a)) st k
  | Any => one (fun c => negb (c =? 10)) st k
  | Cls l => one (cls_match ic l) st k
  | NCls l => one (fun c => negb (cls_match ic l c)) st k
  | Seq r1 r2 => rmatch ic r1 st (fun st' => rmatch ic r2 st' k)
  | Alt r1 r2 =>
      match rmatch ic r1 st k with
      | Some x => Some x
      | None => rmatch ic r2 st k
      end
  | Rep r lo hi =>
      rep_loop (rmatch ic r) k (S (length (st_rest st))) lo hi st
  | Bol => if at_bol st then k st else None
  | Eol => if at_eol st then k st else None
  | Wb => if at_wb st then k st else None
  | Grp i r =>
      rmatch ic r st (fun st' => k (set_cap i (st_pos st) (st_pos st') st'))
  end.

Definition match_here (ic : bool) (r : re) (prev : option N) (pos : nat)
    (s : str) : option mstate :=
  rmatch ic r (MState prev s pos []) Some.

(** [re.match(r, s)] *)
Definition re_match (ic : bool) (r : re) (s : str) : option mstate :=
  match_here ic r None 0 s.

(** [re.fullmatch(r, s)] *)
Definition re_fullmatch (ic : bool) (r : re) (s : str) : option mstate :=
  rmatch ic r (MState None s 0 [])
    (fun st => match st_rest st with [] => Some st | _ => None end).

Fixpoint search_from (ic : bool) (r : re) (prev : option N) (pos : nat)
    (s : str) : option (nat * mstate) :=
  match match_here ic r prev pos s with
  | Some st' => Some (pos, st')
  | None =>
      match s with
      | [] => None
      | c :: s' => search_from ic r (Some c) (S pos) s'
      end
  end.

(** [re.search(r, s)]: the start of the leftmost match and its end. *)
Definition re_search (ic : bool) (r : re) (s : str) : option (nat * mstate) :=
  search_from ic r None 0 s.

Definition found {A : Type} (o : option A) : bool :=
  match o with Some _ => true | None => false end.

Definition re_found (ic : bool) (r : re) (s : str) : bool :=
  found (re_search ic r s).

(** [m.group(i)] of a match on [s]. *)
Definition group (s : str) (st : mstate) (i : nat) : str :=
  match List.find (fun p => Nat.eqb (fst p) i) (st_caps st) with
  | Some (_, (a, b)) => firstn (b - a) (skipn a s)
  | None => []
  end.

Fixpoint sub_from (fuel : nat) (ic : bool) (r : re) (repl : str)
    (prev : option N) (pos : nat) (s : str) : str :=
  match fuel with
  | O => s
  | S fuel' =>
      let step :=
        match s with
        | [] => []
        | c :: s' => c :: sub_from fuel' ic r repl (Some c) (S pos) s'
        end in
      match match_here ic r prev pos s with
      | Some st' =>
          if Nat.ltb pos (st_pos st')
          then repl ++ sub_from fuel' ic r repl (st_prev st') (st_pos st')
                                (st_rest st')
          else repl ++ step
      | None => step
      end
  end.

(** [re.sub(r, repl, s)] *)
Definition re_sub (ic : bool) (r : re) (repl : str) (s : str) : str :=
  sub_from (S (length s)) ic r repl None 0 s.

(** ** Text normalisation *)

Definition ws : re := Cls [ISpace].

(** [re.sub(r"\s+", " ", s).strip()] *)
Definition squeeze (s : str) : str := strip (re_sub false (Plus ws) (py " ") s).

Definition normalize_text (text : str) : str :=
  match text with
  | [] => []
  | _ =>
      let text := List.filter is_ascii (nfkd text) in
      let text := replace_char 0 32 text in
      squeeze text
  end.

(** ** The tables of [extraction_utils.py] *)

Definition SYSTEM_KEYWORDS : list str := map py [
  "ARRANGEMENT"; "ARR'T"; "ARR T"; "ARRANGMENT";
  "E/R"; "E-R"; "E R";
  "WORK SHOP"; "WORKSHOP"; "STORE";
  "SPARE PARTS"; "TOOLS LIST"; "SPARE PARTS AND TOOLS LIST";
  "SPARE PARTS & TOOLS LIST";
  "MAIN ENGINE"; "AUX"; "AUX. MACHINERY"; "AUX MACHINERY";
  "VALVE LIST"; "V/V LIST";
  "ICCP"; "I.C.C.P.";
  "PAINTING SPECIFICATION";
  "DOCKING ANALYSIS"; "DOCKING PLAN";
  "ACCOMMODATION"; "DECK MACHINERY";
  "SIDE THRUSTER"; "STERN THRUSTER"; "BOW THRUSTER";
  "FIRE FIGHTING"; "FIRE APPLIANCE";
  "AIR CONDITIONING PLANT";
  "PROVISION REFRIGERATING PLANT";
  "GALLEY AND LAUNDRY EQUIPMENT";
  "SEWAGE TREATMENT PLANT";
  "MACHINERY ARRANGEMENT";
  "EQUIPMENT LIST";
  "FLOWMETER"; "FLOW METER";
  "PLATE TYPE COOLER";
  "CENTRIFUGAL PUMP";
  "M.G.P.S"; "M. G. P. S"; "MARINE GROWTH PREVENTION SYSTEM";
  "STEERING GEAR ROOM"; "STEERING GEAR"; "STEERI NG GEAR";
  "RUDDER"; "SHAFT"; "FOUNDATION"; "FRAME"; "STOCK"; "CONSTRUCTION"; "STERN";
  "HULL"; "SHELL"; "EXPANSION"; "BEARING";
  "NAME"; "CAUTION"; "PLATE"; "NAME & CAUTION PLATE";
  "NAME AND CAUTION PLATE";
  "INSTALLATION"; "DOOR PLAN"; "INSULATION PLAN"; "CRANE"; "LIFTING BEAM";
  "V/D"; "V-D"; "VENDOR DRAWING"
]%string.

Definition ANCHOR_WORDS : list str := map py [
  "V/D"; "VENDOR"; "DRAWING";
  "SPARE"; "TOOLS"; "LIST";
  "ARRANGEMENT"; "VALVE"; "EQUIPMENT";
  "NAME"; "CAUTION"; "PLATE";
  "ICCP"; "PAINTING"; "DOCKING";
  "FLOWMETER"; "COOLER"; "PUMP";
  "STEERING"; "RUDDER"; "FOUNDATION"; "CONSTRUCTION";
  "INSTALLATION"; "DOOR"; "INSULATION"; "CRANE"; "LIFTING";
  "AIR-CON"; "AIRCON"; "PROVISION"; "REFRIGERATING"
]%string.

Definition dot_opt : re := Opt (Lit ".").

Definition STAMP_REGEX : re :=
  seqs [Wb;
        Grp 1 (alts [
          lits "DATE"; Seq (lits "REV") dot_opt; lits "DESCRIPTION";
          lits "OWN"; Seq (lits "CHKD") dot_opt; Seq (lits "APPD") dot_opt;
          Seq (lits "DWN") dot_opt;
          seqs [lits "CHKD"; Star ws; lits "BY"];
          seqs [lits "APPD"; Star ws; lits "BY"];
          seqs [lits "DWN"; Star ws; lits "BY"];
          seqs [lits "CHKO"; dot_opt; Star ws; lits "BY"];
          seqs [lits "ISSUED"; Star ws; lits "FOR"];
          seqs [lits "PLAN"; Star ws; lits "HISTORY"];
          seqs [lits "SUBMITTED"; Star ws; lits "TO"];
          seqs [lits "APPROVED"; Star ws; lits "BY"];
          Seq (lits "SHEET") (Opt (Grp 2 (Seq (Star ws) (lits "NO"))));
          lits "SCALE";
          seqs [lits "PROJECT"; Star ws; lits "NO"];
          seqs [lits "PLAN"; Star ws; lits "NO"];
          seqs [lits "DWG"; Star ws; lits "NO"];
          seqs [lits "DRAWING"; Star ws; lits "NO"];
          lits "DEPT"; lits "DEPARTMENT"; lits "DSME"]);
        Wb].

Definition ALLCAPS_JUNK_WHITELIST : list str :=
  map py ["MAIN"; "AUX"; "E/R"; "ICCP"; "MGPS"; "V/V"; "V/D"]%string.

Definition VOWELS : str := py "AEIOU".

(** ** The cleaning stages *)

(** [_alpha_ratio(s)], as the fraction of its two naturals. *)
Definition _alpha_ratio (s : str) : nat * nat :=
  match s with
  | [] => (0, 1)%nat
  | _ => (length (List.filter isalpha s), Nat.max (length s) 1)
  end.

(** [q < num/den] *)
Definition ratio_lt (q : nat * nat) (num den : nat) : bool :=
  Nat.ltb (fst q * den) (num * snd q).

Definition _has_vowel (token : str) : bool :=
  existsb (fun ch => existsb (N.eqb ch) VOWELS) (upper token).

Definition _looks_like_stamp_or_revision (line_upper : str) : bool :=
  match line_upper with
  | [] => false
  | _ =>
      if re_found true STAMP_REGEX line_upper then true
      else if contains (py "OWN CHKD APPD") line_upper
              || contains (py "DATE REV") line_upper then true
      else false
  end.

Definition colon_dash_opt : re := Opt (Cls [ILit ":"; ILit "-"]).

Definition stamp_by : re :=
  seqs [Wb; Grp 1 (alts [lits "CHKD"; lits "APPD"; lits "DWN"; lits "CHKO"]);
        Wb; Star ws; dot_opt; Star ws; Opt (Grp 2 (lits "BY")); Star ws;
        colon_dash_opt; Star ws;
        Rep (Cls [IRange "A" "Z"; ILit "."; ISpace]) 0 (Some 15%nat)].

Definition stamp_rev : re :=
  seqs [Wb;
        Grp 1 (alts [lits "OWN"; Seq (lits "REV") dot_opt; lits "DATE";
                     lits "DESCRIPTION"]);
        Wb; Star ws; colon_dash_opt; Star ws;
        Rep (Cls [IRange "A" "Z"; IRange "0" "9"; ILit "."; ISpace])
            0 (Some 15%nat)].

Definition stamp_tail : re :=
  seqs [Wb;
        Grp 1 (alts [seqs [lits "ISSUED"; Star ws; lits "FOR"];
                     seqs [lits "PLAN"; Star ws; lits "HISTORY"];
                     seqs [lits "SUBMITTED"; Star ws; lits "TO"];
                     seqs [lits "APPROVED"; Star ws; lits "BY"]]);
        Wb; Star Any].

Definition _strip_stamp_fragments (s : str) : str :=
  match s with
  | [] => []
  | _ =>
      let s := normalize_text s in
      let s := re_sub true stamp_by (py " ") s in
      let s := re_sub true stamp_rev (py " ") s in
      let s := re_sub true stamp_tail (py " ") s in
      let s := re_sub true STAMP_REGEX (py " ") s in
      squeeze s
  end.

Definition vd_any : re :=
  seqs [Wb; lits "V"; Star ws; Opt (Cls [ILit "-"; ILit "."; ILit "/"]);
        Star ws; lits "D"; Star ws; Opt (lits "OF"); Wb].

Definition vd_slash_of : re :=
  seqs [Wb; lits "V"; Star ws; lits "/"; Star ws; lits "D"; Wb; Star ws;
        lits "OF"; Wb].

Definition term_rules : list (bool * re * str) := [
  (true, vd_any, py "V/D of");
  (true, vd_slash_of, py "V/D of");
  (true, seqs [Wb; lits "PROV"; dot_opt; Wb], py "Provision");
  (true, seqs [Wb; lits "REF"; Opt (lits "ER"); dot_opt; Wb],
   py "Refrigerating");
  (true, seqs [Wb; lits "AIR"; Opt (Cls [ILit "-"; ISpace]); lits "CON"; Wb],
   py "Air-Con");
  (true, seqs [Wb; lits "ARR"; Opt (Cls [ILit "'"; ICode 8217]); Star ws;
               lits "T"; Wb], py "ARRANGEMENT");
  (true, seqs [Wb; lits "ARR"; Star ws; lits "T"; Wb], py "ARRANGEMENT");
  (true, seqs [Wb; lits "ARRANGMENT"; Wb], py "ARRANGEMENT");
  (true, seqs [Wb; lits "E"; Star ws; lits "-"; Star ws; lits "R"; Wb],
   py "E/R");
  (true, seqs [Wb; lits "E"; Plus ws; lits "R"; Wb], py "E/R");
  (true, seqs [Wb; lits "E"; Star ws; lits "/"; Star ws; lits "R"; Wb],
   py "E/R");
  (true, seqs [Wb; lits "WORK"; Plus ws; lits "SHOP"; Wb], py "WORKSHOP");
  (false, seqs [Star ws; lits "&"; Star ws], py " AND ")
].

(** The substitutions of a list, applied one after the other. *)
Definition apply_rules (rules : list (bool * re * str)) (s : str) : str :=
  fold_left (fun s '(ic, r, repl) => re_sub ic r repl s) rules s.

Definition _normalize_title_terms (s : str) : str :=
  match s with
  | [] => []
  | _ => squeeze (apply_rules term_rules (normalize_text s))
  end.

(** The least index at which a word of [ws] occurs in [up]. *)
Definition first_anchor (words : list str) (up : str) : option nat :=
  fold_left (fun best w =>
               match find w up with
               | Some idx =>
                   match best with
                   | None => Some idx
                   | Some b => Some (Nat.min b idx)
                   end
               | None => best
               end) words None.

Definition _slice_from_first_anchor (s : str) : str :=
  match s with
  | [] => []
  | _ =>
      let s := _normalize_title_terms s in
      if startswith (py "V/D OF") (upper s) then s
      else
        let up := upper s in
        match first_anchor ANCHOR_WORDS up with
        | None => s
        | Some best_idx =>
            let head := firstn best_idx s in
            if ratio_lt (_alpha_ratio head) 40 100
               || Nat.ltb 12 (length head)
            then strip (skipn best_idx s)
            else s
        end
  end.

Definition letters : list citem := [IRange "A" "Z"; IRange "a" "z"].

(** What [_drop_garbage_tokens] does with one token: the token it
    appends, or nothing. *)
Definition keep_token (tok : str) : option str :=
  let t := strip tok in
  let tu := upper t in
  if str_in tu (map py ["AND"; "OF"; "FOR"; "IN"]%string) then
    Some (if str_in tu (map py ["OF"; "FOR"; "IN"]%string)
          then lower tu else py "and")
  else if str_in tu (map py ["E/R"; "E-R"]%string) then Some (py "E/R")
  else if str_eqb tu (py "V/D") then Some (py "V/D")
  else if found (re_fullmatch false (Rep (Cls [INonWord; ILit "_"]) 2 None) t)
  then None
  else if Nat.leb (length t) 2 && negb (str_in tu [py "ER"]) then None
  else if re_found false (Cls [ICode 34; ILit "'"; ILit ","; ILit "`"]) t
          && ratio_lt (_alpha_ratio t) 70 100 then None
  else if isupper t && Nat.leb 3 (length t) && Nat.leb (length t) 4
          && negb (str_in tu ALLCAPS_JUNK_WHITELIST)
          && negb (str_in tu (map py ["PLAN"; "ROOM"]%string)) then None
  else if Nat.leb 3 (length t) && str_isalpha t && negb (_has_vowel t)
          && negb (str_in tu ALLCAPS_JUNK_WHITELIST) then None
  else if ratio_lt (_alpha_ratio t) 25 100
          && negb (re_found false (Rep (Cls letters) 3 None) t) then None
  else if re_found false (Rep (Cls [ILit ":"; ILit ";"]) 1 None) t
          && ratio_lt (_alpha_ratio t) 45 100 then None
  else Some t.

Definition _drop_garbage_tokens (s : str) : str :=
  match s with
  | [] => []
  | _ => squeeze (join (py " ") (omap keep_token (split s)))
  end.

Definition title_extras : list str :=
  map py ["PLAN"; "LIST"; "ARRANGEMENT"; "INSTALLATION"; "DOOR";
          "INSULATION"; "CRANE"; "BEAM"; "SYSTEM"; "PLANT"]%string.

Definition _is_meaningful_title (s : str) : bool :=
  match s with
  | [] => false
  | _ =>
      let up := upper s in
      let words := List.filter (fun w => Nat.leb 3 (length w)) (split s) in
      if Nat.ltb (length words) 3 && negb (startswith (py "V/D OF") up)
      then false
      else if startswith (py "V/D OF") up then true
      else if any_in SYSTEM_KEYWORDS up then true
      else if any_in title_extras up then true
      else false
  end.

(** ** [clean_manual_name] *)

Definition edge : list citem :=
  [IRange "A" "Z"; IRange "a" "z"; IRange "0" "9";
   ILit "/"; ILit "&"; ILit "("; ILit ")"].

Definition trim_edges : re :=
  Alt (Seq Bol (Plus (NCls edge))) (Seq (Plus (NCls edge)) Eol).

Definition prefixes : list string := [
  "Manual for"; "Instruction for"; "Technical Manual for";
  "Title"; "Ref"; "Technical"; "for";
  "Instruction Manual -"; "Final & Instruction Manual for";
  "Final Drawings"; "Instruction Manual"; "Technical Specification of";
  "TITLE:"; "TITLE";
  "DRAWING OF"; "DRAW I NG OF"; "VENDOR DWG OF"; "VENDOR DWG";
  "DWG OF"; "VENDOR DRAWING OF"; "VENDOR DRAWING"
]%string.

Definition prefix_pattern : re :=
  seqs [Bol; alts (map lits prefixes);
        Plus (Cls [ISpace; ILit ":"; ILit "-"; ILit "."; ILit "_"])].

(** One pass of the body of the loop. *)
Definition clean_pass (name : str) : str :=
  let name := strip (re_sub false trim_edges [] name) in
  let name := _slice_from_first_anchor name in
  let name := _strip_stamp_fragments name in
  let name := _drop_garbage_tokens name in
  let name := _normalize_title_terms name in
  strip (re_sub true prefix_pattern [] name).

(** The loop: [passes] bounds the passes it may take. *)
Fixpoint clean_loop (passes : nat) (name : str) : option str :=
  match passes with
  | O => None
  | S passes' =>
      let prev := name in
      let name := clean_pass name in
      if str_eqb name prev then Some name else clean_loop passes' name
  end.

Definition tel_tail : re :=
  seqs [Star ws; Opt (Lit "("); Wb; lits "T"; Opt ws; lits "E"; Opt ws;
        lits "L"; Wb; Opt (Lit ":"); Star Any].

Definition volt_tail : re :=
  seqs [Star ws; Opt (Lit "("); Wb; Plus (Cls [IDigit]);
        alts [lits "V"; lits "PH"; lits "HZ"; lits "KW"]; Wb; Star Any].

Definition smart_title (s : str) : str :=
  let out :=
    map (fun w =>
           let wu := upper w in
           if str_in wu (map py ["E/R"; "ICCP"; "MGPS"; "M.G.P.S"; "V/V";
                                 "V/D"]%string) then wu
           else if isupper w && Nat.leb (length w) 4 then w
           else capitalize w) (split s) in
  let res := join (py " ") out in
  re_sub true (seqs [Bol; lits "V/D"; Plus ws; lits "Of"; Wb]) (py "V/D of")
    res.

(** The minimum-content gate: [name] is rejected. *)
Definition too_little (name : str) : bool :=
  let alnum :=
    re_sub false (NCls [IRange "a" "z"; IRange "A" "Z"; IRange "0" "9"]) []
      name in
  Nat.ltb (length alnum) 4
  || str_in (upper name)
       (map py ["TITLE"; "MANUAL"; "REF"; "PROJECT"; "DWG"; "PLAN"]%string).

(** What follows the loop. *)
Definition clean_finish (name : str) : str :=
  let name := strip (re_sub true tel_tail [] name) in
  let name := strip (re_sub true volt_tail [] name) in
  let name := strip (re_sub false trim_edges [] name) in
  let name := squeeze name in
  if too_little name then [] else smart_title name.

Definition clean_manual_name (passes : nat) (name : str) : option str :=
  match name with
  | [] => Some []
  | _ =>
      match clean_loop passes (_normalize_title_terms name) with
      | Some name => Some (clean_finish name)
      | None => None
      end
  end.

(** ** [identify_manual_name]

    A strategy yields [Some (Some name)] when it returns [name],
    [Some None] when control falls through to the next one, and [None] when
    a call of [clean_manual_name] has not come back. *)

Definition nonempty (s : str) : bool :=
  match s with [] => false | _ => true end.

Definition or_else (a : option (option str))
    (b : unit -> option (option str)) : option (option str) :=
  match a with
  | Some None => b tt
  | _ => a
  end.

(** [cleaned = clean_manual_name(cand)] followed by
    [if cleaned and _is_meaningful_title(cleaned): return cleaned]
    (without the second test when [gate] is [false]). *)
Definition return_if_clean (passes : nat) (gate : bool) (cand : str)
    : option (option str) :=
  match clean_manual_name passes cand with
  | Some cleaned =>
      if nonempty cleaned && (negb gate || _is_meaningful_title cleaned)
      then Some (Some cleaned) else Some None
  | None => None
  end.

Definition drawing_prefix : list re :=
  [Bol; Plus (Cls [IRange "A" "Z"]); Lit "("; Cls [IRange "A" "Z"]; Lit ")";
   Lit "-"; Plus (Cls [IDigit])].

Definition vd_of : re :=
  seqs [Wb; lits "V"; Star ws; Opt (Cls [ILit "-"; ILit "."; ILit "/"]);
        Star ws; lits "D"; Star ws; lits "OF"; Wb].

Definition title_word : re :=
  seqs [Wb; lits "TITLE"; Wb; Star ws; colon_dash_opt].

Definition three_letters : re := Rep (Cls letters) 3 None.

Definition LABEL_PATTERNS : list (str * re) := [
  (py "Document Title",
   seqs [alts [lits "Title"; lits "Manual for"; lits "Drawing Title";
               lits "Plan Title"];
         Star ws; Cls [ILit ":"; ILit "-"]; Star ws;
         Grp 1 (Plus (Cls [IRange "A" "Z"; ISpace; ILit "/"; ILit "&";
                           ILit "."; ILit "-"]))]);
  (py "Engine Type",
   seqs [alts [lits "Engine"; lits "M/E"; lits "A/E"];
         Star ws; lits "type"; Star ws; colon_dash_opt; Star ws;
         Grp 1 (Plus (Cls [IRange "A" "Z"; IRange "0" "9"; ILit "/";
                           ILit "."; ILit "-"]))]);
  (py "Ship No",
   seqs [alts [lits "Ship"; lits "Hull"; lits "Project";
               seqs [lits "H"; dot_opt; lits "NO"; dot_opt]];
         Star ws; alts [Seq (lits "no") dot_opt; lits "Number"];
         Star ws; colon_dash_opt; Star ws;
         Grp 1 (Plus (Cls [IRange "A" "Z"; IRange "0" "9"; ILit "/";
                           ILit "."; ILit "-"]))]);
  (py "Vessel Name",
   seqs [alts [lits "Vessel"; lits "Ship"];
         Star ws; lits "Name"; Star ws; colon_dash_opt; Star ws;
         Grp 1 (Plus (Cls [IRange "A" "Z"; ISpace]))])
].

(** The lines of the text that are not blank, stripped; at most 900. *)
Definition text_lines (text : str) : list str :=
  firstn 900
    (map strip (List.filter (fun ln => nonempty (strip ln)) (split_on 10 text))).

Definition filename_stem (filename : option str) : str :=
  match filename with
  | Some ((_ :: _) as f) => path_stem f
  | _ => []
  end.

Definition folder_basename (folder_path : option str) : str :=
  match folder_path with
  | Some ((_ :: _) as f) => path_name f
  | _ => []
  end.

Definition is_drawing_prefix (filename_only : str) : bool :=
  found (re_match true (seqs drawing_prefix) filename_only).

Definition fn_clean_of (filename_only : str) : str :=
  let fn_clean :=
    strip (re_sub true (seqs (drawing_prefix ++ [Star ws])) [] filename_only) in
  let fn_clean := replace_char 45 32 (replace_char 95 32 fn_clean) in
  squeeze fn_clean.

(** Strategy 1: the file name of a numbered drawing. *)
Definition drawing_rule (passes : nat) (filename_only fn_clean : str)
    : option (option str) :=
  if is_drawing_prefix filename_only then
    let words := List.filter (fun w => Nat.leb 2 (length w)) (split fn_clean) in
    if Nat.leb 2 (length words) then return_if_clean passes false fn_clean
    else Some None
  else Some None.

(** Strategy 2: the file name of a vendor drawing. *)
Definition vendor_rule (passes : nat) (fn_clean : str) : option (option str) :=
  if re_found true vd_of fn_clean then
    let forced := _normalize_title_terms fn_clean in
    return_if_clean passes false forced
  else Some None.

Definition block_markers : list str :=
  map py ["PROJECT NO"; "PLAN NO"; "DWG NO"; "DRAWING NO"; "SHEET"; "SCALE";
          "DEPT"; "DSME"]%string.

Definition block_stoppers : list str :=
  map py ["V/D"; "E/R"; "PLAN"; "LIST"; "ARRANGEMENT"; "SYSTEM";
          "PLANT"]%string.

(** The inner loop of strategy 3 over the lines that follow. *)
Fixpoint title_chunk (chunk : list str) (following : list str) : list str :=
  match following with
  | [] => chunk
  | l :: rest =>
      let nxt := strip l in
      let nxt_up := upper nxt in
      if negb (nonempty nxt) then title_chunk chunk rest
      else if _looks_like_stamp_or_revision nxt_up then chunk
      else if any_in block_markers nxt_up then chunk
      else if ratio_lt (_alpha_ratio nxt) 20 100
              && negb (re_found false three_letters nxt)
      then title_chunk chunk rest
      else
        let chunk := chunk ++ [nxt] in
        let joined := join (py " ") chunk in
        if Nat.ltb 40 (length joined) && any_in block_stoppers (upper joined)
        then chunk
        else title_chunk chunk rest
  end.

(** Strategy 3 over the lines [ls] and at most [n] of them. *)
Fixpoint title_block_scan (passes n : nat) (ls : list str)
    : option (option str) :=
  match n, ls with
  | S n', line :: rest =>
      match re_search true title_word line with
      | None => title_block_scan passes n' rest
      | Some (start, _) =>
          let chunk := title_chunk [skipn start line] (firstn 34 rest) in
          or_else (return_if_clean passes true (join (py " ") chunk))
                  (fun _ => title_block_scan passes n' rest)
      end
  | _, _ => Some None
  end.

Definition merged_markers : list str :=
  map py ["V-D"; "V/D"; "SPARE"; "ARR"; "NAME"; "VALVE"; "EQUIPMENT";
          "SYSTEM"; "PLANT"]%string.

(** Strategy 4. *)
Fixpoint merged_line_scan (passes : nat) (ls : list str)
    : option (option str) :=
  match ls with
  | [] => Some None
  | line :: rest =>
      let up := upper line in
      if contains (py "TITLE") up && any_in merged_markers up then
        let candidate :=
          match find (py "TITLE") up with
          | Some i => skipn i line
          | None => line
          end in
        or_else (return_if_clean passes true candidate)
                (fun _ => merged_line_scan passes rest)
      else merged_line_scan passes rest
  end.

Fixpoint insert_by_len (w : str) (l : list str) : list str :=
  match l with
  | [] => [w]
  | x :: l' =>
      if Nat.ltb (length x) (length w) then w :: l
      else x :: insert_by_len w l'
  end.

(** [sorted(set(SYSTEM_KEYWORDS), key=len, reverse=True)], the words of
    one length in the order of the table. *)
Definition keywords : list str :=
  fold_left (fun acc w => if str_in w acc then acc else insert_by_len w acc)
    SYSTEM_KEYWORDS [].

(** The inner loop of strategy 5 over the lines that follow. *)
Fixpoint keyword_candidate (candidate : str) (following : list str) : str :=
  match following with
  | [] => candidate
  | l :: rest =>
      let nxt := strip l in
      let nxt_up := upper nxt in
      if _looks_like_stamp_or_revision nxt_up then candidate
      else if ratio_lt (_alpha_ratio nxt) 18 100
              && negb (re_found false three_letters nxt)
      then keyword_candidate candidate rest
      else
        let candidate := candidate ++ py " " ++ nxt in
        if Nat.ltb 360 (length candidate) then candidate
        else keyword_candidate candidate rest
  end.

Fixpoint keyword_try (passes : nat) (kws : list str) (line : str)
    (rest : list str) : option (option str) :=
  match kws with
  | [] => Some None
  | kw :: kws' =>
      if contains kw (upper line) && Nat.ltb (length line) 260 then
        let candidate := keyword_candidate line (firstn 11 rest) in
        or_else (return_if_clean passes true candidate)
                (fun _ => keyword_try passes kws' line rest)
      else keyword_try passes kws' line rest
  end.

(** Strategy 5 over the lines [ls] and at most [n] of them. *)
Fixpoint keyword_scan (passes n : nat) (ls : list str)
    : option (option str) :=
  match n, ls with
  | S n', line :: rest =>
      let up := upper line in
      if _looks_like_stamp_or_revision up then keyword_scan passes n' rest
      else if ratio_lt (_alpha_ratio line) 18 100
              && negb (re_found false three_letters line)
      then keyword_scan passes n' rest
      else or_else (keyword_try passes keywords line rest)
                   (fun _ => keyword_scan passes n' rest)
  | _, _ => Some None
  end.

(** Strategy 6. *)
Fixpoint label_scan (passes : nat) (pats : list (str * re)) (text : str)
    : option (option str) :=
  match pats with
  | [] => Some None
  | (_, pat) :: pats' =>
      match re_search true pat text with
      | Some (_, m) =>
          or_else (return_if_clean passes true (strip (group text m 1)))
                  (fun _ => label_scan passes pats' text)
      | None => label_scan passes pats' text
      end
  end.

(** Strategy 7: the title of the metadata. *)
Definition metadata_title (passes : nat) (metadata : option (gmap str str))
    : option (option str) :=
  match metadata with
  | Some md =>
      match md !! py "/Title" with
      | Some ((_ :: _) as v) =>
          let title := strip v in
          if Nat.ltb 5 (length title)
             && negb (str_in (lower title)
                        (map py ["untitled"; "none"; "1"]%string))
          then return_if_clean passes true title
          else Some None
      | _ => Some None
      end
  | None => Some None
  end.

(** Strategies 1 to 6, in their order. *)
Definition text_strategies (passes : nat) (text : option str)
    (filename : option str) : option (option str) :=
  let text := default [] text in
  let lines := text_lines text in
  let filename_only := filename_stem filename in
  let fn_clean := fn_clean_of filename_only in
  or_else (drawing_rule passes filename_only fn_clean) (fun _ =>
  or_else (vendor_rule passes fn_clean) (fun _ =>
  or_else (title_block_scan passes 320 lines) (fun _ =>
  or_else (merged_line_scan passes (firstn 420 lines)) (fun _ =>
  or_else (keyword_scan passes 550 lines) (fun _ =>
  label_scan passes LABEL_PATTERNS text))))).

(** The last step: the folder and the file name. *)
Definition fallback (passes : nat) (folder_name fn_clean : str) : option str :=
  let combo := strip_chars (py " -") (folder_name ++ py " - " ++ fn_clean) in
  match clean_manual_name passes combo with
  | Some cleaned => Some (if nonempty cleaned then cleaned else [])
  | None => None
  end.

Definition identify_manual_name (passes : nat) (text filename : option str)
    (folder_path : option str) (metadata : option (gmap str str))
    : option str :=
  match or_else (text_strategies passes text filename)
                (fun _ => metadata_title passes metadata) with
  | Some (Some name) => Some name
  | Some None =>
      fallback passes (folder_basename folder_path)
        (fn_clean_of (filename_stem filename))
  | None => None
  end.

(** ** [classify_doc_type] *)

Definition manual_words : list str :=
  map py ["manual"; "instruction"; "handbook"; "guide"; "tmm";
          "operation manual"; "maintenance manual"]%string.

Definition capacity_words : list str :=
  map py ["capacity plan"; "tank capacity"; "tank table"; "sounding table";
          "deadweight scale"]%string.

Definition certificate_words : list str :=
  map py ["certificate"; "report"; "test result"; "approval";
          "inclining experiment"; "sea trial"; "test record"]%string.

Definition drawing_words : list str :=
  map py ["drawing"; "diagram"; "schematic"; "blueprint"; "arr't";
          "arrangment"; "arrangement"; "plan"; "details of"; "v/d"; "v/dwg";
          "vendor drawing"]%string.

Definition equipment_words : list str :=
  map py ["equipment list"; "v/v list"; "valve list"; "flowmeter";
          "plate type cooler"; "centrifugal pump";
          "m.g.p.s"; "prevention system"; "name and caution plate";
          "door plan"; "insulation plan"; "installation of"; "lifting beam";
          "crane";
          "air-con system"; "provision refrigerating plant"; "vendor drawing";
          "v/d of"]%string.

Definition structure_words : list str :=
  map py ["structure"; "construction"; "body plan"; "shell expansion";
          "deck and stringer"; "bulkhead"; "frames"; "coamings";
          "fore body"]%string.

Definition combined_text (text filename : option str) (folder_path : str)
    : str :=
  lower (normalize_text (default [] text) ++ py " "
         ++ normalize_text (default [] filename) ++ py " "
         ++ normalize_text (path_name folder_path)).

Definition classify_doc_type (text filename : option str) (folder_path : str)
    : str :=
  let combined := combined_text text filename folder_path in
  if any_in manual_words combined then py "Machinery/System Manual"
  else if any_in capacity_words combined then py "Capacity Plan / Datasheet"
  else if any_in certificate_words combined then py "Certificate / Report"
  else if any_in drawing_words combined
          && negb (contains (py "manual") combined) then py "Drawing"
  else if any_in equipment_words combined
          && negb (contains (py "manual") combined) then py "Drawing"
  else if any_in structure_words combined then py "Drawing"
  else py "Unknown".

(** ** The confidence logic of the scan loop of [app.py] *)

Definition confidence_logic (content : str) (metadata : gmap str str)
    (manual_name file_name parent : str) : str * list str :=
  let confidence := py "Low" in
  let clues := [] in
  let '(confidence, clues) :=
    if nonempty (strip content)
    then (py "Med", clues ++ [py "Text content"])
    else (confidence, clues) in
  let '(confidence, clues) :=
    match metadata !! py "/Title" with
    | Some ((_ :: _) as v) =>
        let meta_title := upper (strip v) in
        if nonempty meta_title && contains meta_title (upper manual_name)
        then (py "High", clues ++ [py "Metadata match"])
        else (confidence, clues)
    | _ => (confidence, clues)
    end in
  let clues :=
    if contains (py "manual") (lower file_name)
       || contains (py "manual") (lower parent)
    then clues ++ [py "Keyword clue"] else clues in
  (confidence, clues).

(** ** [extract_with_regex] *)

Definition METADATA_PATTERNS : list (str * re) := [
  (py "Document Number",
   seqs [alts [lits "Doc"; lits "DWG"; lits "Plan"]; dot_opt; Star ws;
         alts [lits "No"; lits "Number"]; Star ws; colon_dash_opt; Star ws;
         Grp 1 (Plus (Cls [IRange "A" "Z"; IRange "0" "9"; ILit "/";
                           ILit "."; ILit "-"]))]);
  (py "Maker",
   seqs [alts [lits "Maker"; lits "Manufacturer"; lits "Company"];
         Star ws; colon_dash_opt; Star ws;
         Grp 1 (Plus (Cls [IRange "A" "Z"; ISpace; ILit ","]))]);
  (py "Model",
   seqs [alts [lits "Model"; lits "Type"];
         Star ws; colon_dash_opt; Star ws;
         Grp 1 (Plus (Cls [IRange "A" "Z"; IRange "0" "9"; ILit "/";
                           ILit "."; ILit "-"]))])
].

(** [patterns] is the list of the items of the dictionary, in its order;
    the result is the dictionary [results]. *)
Definition extract_with_regex (text : option str)
    (patterns : list (str * re)) : gmap str str :=
  fold_left
    (fun results '(key, pattern) =>
       let m := re_search true pattern (default [] text) in
       <[key := match m with
                | Some (_, m) => strip (group (default [] text) m 1)
                | None => py "Unknown"
                end]> results)
    patterns ∅.

(** ** The scan loop of [app.py]

    What the loop is given for a file by the extraction layer: the name
    and the parent folder of the path, its relative path, the content, the
    metadata and the status. *)
Record extracted := Extracted {
  x_name : str;
  x_parent : str;
  x_relpath : str;
  x_content : str;
  x_metadata : gmap str str;
  x_status : str
}.

(** The dictionary [counts], whose five keys are fixed. *)
Record counts := Counts {
  processed : nat;
  success : nat;
  unsupported : nat;
  ocr_missing : nat;
  error : nat
}.

(** A row of the results. *)
Record row := Row {
  r_file_name : str;
  r_relative_path : str;
  r_file_type : str;
  r_manual_name : str;
  r_confidence : str;
  r_clues : str;
  r_notes : str
}.

Record scan_state := ScanState {
  s_counts : counts;
  s_type_counts : gmap str nat;
  s_results : list row
}.

Definition scan_start : scan_state :=
  ScanState (Counts 0 0 0 0 0) ∅ [].

(** The post-processing of the status: the status that is noted, and the
    counters. *)
Definition post_process (content status : str) (c : counts) : str * counts :=
  if str_eqb status (py "Success") && negb (nonempty (strip content)) then
    (py "Skipped: Scanned/No Text (OCR missing)",
     Counts (processed c) (success c) (unsupported c) (S (ocr_missing c))
       (error c))
  else if contains (py "Skipped") status then
    (status,
     Counts (processed c) (success c) (S (unsupported c)) (ocr_missing c)
       (error c))
  else if contains (py "Error") status then
    (status,
     Counts (processed c) (success c) (unsupported c) (ocr_missing c)
       (S (error c)))
  else
    (status,
     Counts (processed c) (S (success c)) (unsupported c) (ocr_missing c)
       (error c)).

(** The body of the loop for one file; [None] when
    [identify_manual_name] does not come back. *)
Definition scan_file (passes : nat) (st : scan_state) (x : extracted)
    : option scan_state :=
  let c := s_counts st in
  let c := Counts (S (processed c)) (success c) (unsupported c)
             (ocr_missing c) (error c) in
  let '(status, c) := post_process (x_content x) (x_status x) c in
  match identify_manual_name passes (Some (x_content x)) (Some (x_name x))
          (Some (x_parent x)) (Some (x_metadata x)) with
  | None => None
  | Some manual_name =>
      let doc_type :=
        classify_doc_type (Some (x_content x)) (Some (x_name x))
          (x_parent x) in
      let type_counts :=
        <[doc_type := (default 0 (s_type_counts st !! doc_type) + 1)%nat]>
          (s_type_counts st) in
      let '(confidence, clues) :=
        confidence_logic (x_content x) (x_metadata x) manual_name (x_name x)
          (x_parent x) in
      let res := Row (x_name x) (x_relpath x) doc_type manual_name confidence
                   (join (py ", ") clues) status in
      Some (ScanState c type_counts (s_results st ++ [res]))
  end.

(** The loop over the files it gets to. *)
Fixpoint scan (passes : nat) (st : scan_state) (files : list extracted)
    : option scan_state :=
  match files with
  | [] => Some st
  | x :: files' =>
      match scan_file passes st x with
      | Some st' => scan passes st' files'
      | None => None
      end
  end.

(** The three counts of the summary sheet over the results. *)
Definition noted (word : str) (r : row) : bool := contains word (r_notes r).

Definition summary_success (results : list row) : nat :=
  length (List.filter (fun x => negb (existsb (fun s => noted s x)
                                        [py "Skipped"; py "Error"]))
            results).

Definition summary_skipped (results : list row) : nat :=
  length (List.filter (noted (py "Skipped")) results).

Definition summary_errors (results : list row) : nat :=
  length (List.filter (noted (py "Error")) results).

(** ** Auxiliary definitions of the proofs *)

(** What [re.sub(r"\\s+", " ", s)] makes of [s], read off the text: each
    run of white space becomes one space.  [in_run] tells that the
    character before was white space. *)
Fixpoint collapse_aux (in_run : bool) (s : str) : str :=
  match s with
  | [] => []
  | c :: s' =>
      if isspace c
      then if in_run then collapse_aux true s' else 32 :: collapse_aux true s'
      else c :: collapse_aux false s'
  end.

(** White space is the character 32 only, and never twice in a row (nor
    at the start when [after_space]). *)
Fixpoint nodouble (after_space : bool) (s : str) : bool :=
  match s with
  | [] => true
  | c :: s' =>
      if isspace c then negb after_space && (c =? 32) && nodouble true s'
      else nodouble false s'
  end.

Definition ends_ws (s : str) : bool :=
  match rev s with
  | c :: _ => isspace c
  | [] => false
  end.

(** Single spaces between words, none at the ends. *)
Definition tidy (s : str) : bool := nodouble true s && negb (ends_ws s).

(** The texts that [normalize_text] leaves as they are. *)
Definition normal (s : str) : bool :=
  forallb is_ascii s && forallb (fun c => negb (c =? 0)) s && tidy s.

(** A word: not empty, and without white space. *)
Definition wordy (w : str) : bool :=
  nonempty w && forallb (fun c => negb (isspace c)) w.

(** Membership in a finite alphabet. *)
Definition mem (A : list N) (c : N) : bool := existsb (N.eqb c) A.

(** A text over the alphabet [A]. *)
Definition within (A : list N) (s : str) : Prop := forallb (mem A) s = true.

Definition atom_dead (p : N -> bool) (A : list N) : bool :=
  forallb (fun c => negb (p c)) A.

(** [r] has no match in a text over the alphabet [A]: whatever it
    matches holds a character that is not of [A]. *)
Fixpoint dead (ic : bool) (A : list N) (r : re) : bool :=
  match r with
  | Lit a => atom_dead (item_match ic (ILit a)) A
  | Any => atom_dead (fun c => negb (c =? 10)) A
  | Cls l => atom_dead (cls_match ic l) A
  | NCls l => atom_dead (fun c => negb (cls_match ic l c)) A
  | Seq r1 r2 => dead ic A r1 || dead ic A r2
  | Alt r1 r2 => dead ic A r1 && dead ic A r2
  | Rep r lo _ => Nat.ltb 0 lo && dead ic A r
  | Grp _ r => dead ic A r
  | Eps | Bol | Eol | Wb => false
  end.

(** A property [I] of the text ahead is kept by every character that an
    atom of [r] takes. *)
Definition step_ok (I : str -> Prop) (p : N -> bool) : Prop :=
  forall c s, I (c :: s) -> p c = true -> I s.

Fixpoint atoms_ok (I : str -> Prop) (ic : bool) (r : re) : Prop :=
  match r with
  | Lit a => step_ok I (item_match ic (ILit a))
  | Any => step_ok I (fun c => negb (c =? 10))
  | Cls l => step_ok I (cls_match ic l)
  | NCls l => step_ok I (fun c => negb (cls_match ic l c))
  | Seq r1 r2 | Alt r1 r2 => atoms_ok I ic r1 /\ atoms_ok I ic r2
  | Rep r _ _ | Grp _ r => atoms_ok I ic r
  | Eps | Bol | Eol | Wb => True
  end.

Definition is_edge (c : N) : bool := cls_match false edge c.

(** The last character of [s], if any, is one that [trim_edges] keeps. *)
Definition ends_edge (s : str) : bool :=
  match rev s with
  | c :: _ => is_edge c
  | [] => true
  end.

(** The strings through which the loop of [clean_manual_name] runs from
    "V/D pump": "V/D of", then "of" [k] times, then "pump". *)
Fixpoint ofs (k : nat) : str :=
  match k with
  | O => []
  | S k' => py "of" ++ ofs k'
  end.

Definition grown (k : nat) : str := py "V/D of" ++ ofs k ++ py "pump".

(** The second word of [grown k]. *)
Definition token (k : nat) : str := py "of" ++ ofs k ++ py "pump".

Definition alphabet : list N := py "V/D ofpum".

(** ** The conditions of the specification, in its words *)

(** The words of [s] of three characters or more. *)
Definition long_words (s : str) : list str :=
  List.filter (fun w => Nat.leb 3 (length w)) (split s).

(** The acceptance condition of the meaningfulness check. *)
Definition meaningful_spec (s : str) : Prop :=
  startswith (py "V/D OF") (upper s) = true
  \/ ((3 <= length (long_words s))%nat
      /\ (Exists (fun k => contains k (upper s) = true) SYSTEM_KEYWORDS
          \/ Exists (fun x => contains x (upper s) = true) title_extras)).

(** The metadata has a title under [key] that is not blank and whose
    upper-cased trimmed form occurs in the upper-cased name. *)
Definition metadata_agrees (key : str) (metadata : gmap str str)
    (manual_name : str) : Prop :=
  exists v, metadata !! key = Some v
            /\ upper (strip v) <> []
            /\ contains (upper (strip v)) (upper manual_name) = true.

(** The words that are left of a drawing's file name count two or more of
    two characters or more. *)
Definition two_words (fn_clean : str) : Prop :=
  (2 <= length (List.filter (fun w => Nat.leb 2 (length w)) (split fn_clean)))%nat.

End WithRuntime.

(** The runtime restricted to ASCII: code points from 128 on have no
    class and no case, [NFKD] leaves the text as it is, and the paths are
    POSIX paths. *)

Definition posix_parts (p : str) : list str :=
  List.filter (fun w => negb (str_eqb w [] || str_eqb w (py ".")))
    (split_on 47 p).

Definition posix_name (p : str) : str := List.last (posix_parts p) [].

Fixpoint rfind_dot (s : str) (i : nat) : option nat :=
  match s with
  | [] => None
  | c :: s' =>
      match rfind_dot s' (S i) with
      | Some j => Some j
      | None => if c =? 46 then Some i else None
      end
  end.

Definition posix_stem (p : str) : str :=
  let name := posix_name p in
  match rfind_dot name 0 with
  | Some i =>
      if Nat.ltb 0 i && Nat.ltb i (length name - 1) then firstn i name
      else name
  | None => name
  end.

#[export] Instance ascii_runtime : Runtime := {|
  nfkd := fun s => s;
  uni_isspace := fun _ => false;
  uni_isalpha := fun _ => false;
  uni_isword := fun _ => false;
  uni_isdigit := fun _ => false;
  uni_isupper := fun _ => false;
  uni_islower := fun _ => false;
  uni_upper := fun c => [c];
  uni_lower := fun c => [c];
  uni_fold := fun c => c;
  path_name := posix_name;
  path_stem := posix_stem;
  nfkd_ascii := fun s _ => eq_refl
|}.



(** ** Syntactic classes of expressions, for the proofs *)

(** No negated class: what such an expression matches, it matches under
    [re.IGNORECASE] as well. *)
Fixpoint positive (r : re) : bool :=
  match r with
  | NCls _ => false
  | Seq r1 r2 | Alt r1 r2 => positive r1 && positive r2
  | Rep r _ _ | Grp _ r => positive r
  | _ => true
  end.

(** * Properties *)

Lemma str_eqb_eq (a b : str) : str_eqb a b = true <-> a = b.
Proof.
  revert b; induction a as [|x a IH]; intros [|y b]; simpl;
    try (split; (discriminate || reflexivity)).
  rewrite andb_true_iff, N.eqb_eq, IH.
  split; [intros [-> ->]; reflexivity | intros [= -> ->]; auto].
Qed.

Lemma str_eqb_refl (a : str) : str_eqb a a = true.
Proof. apply str_eqb_eq; reflexivity. Qed.

Lemma any_in_Exists (l : list str) (s : str) :
  any_in l s = true <-> Exists (fun k => contains k s = true) l.
Proof.
  unfold any_in. rewrite existsb_exists, List.Exists_exists. reflexivity.
Qed.

Lemma contains_app_r (k a b : str) :
  contains k b = true -> contains k (a ++ b) = true.
Proof.
  unfold contains. intros H. induction a as [|x a IH]; [exact H|].
  cbn [app find]. destruct (startswith k (x :: a ++ b)); [reflexivity|].
  destruct (find k (a ++ b)); [reflexivity | discriminate].
Qed.

Lemma any_in_intro (l : list str) (k s : str) :
  In k l -> contains k s = true -> any_in l s = true.
Proof.
  intros Hin Hc. apply existsb_exists. exists k; auto.
Qed.

Section Properties.
Context {R : Runtime}.

(** ** White space *)

Lemma isspace_32 : isspace 32 = true.
Proof. reflexivity. Qed.

Lemma lstrip_by_app1 (p : N -> bool) (a : str) (c : N) :
  lstrip_by p (a ++ [c])
  = match lstrip_by p a with
    | [] => if p c then [] else [c]
    | l => l ++ [c]
    end.
Proof.
  induction a as [|x a IH]; cbn; [reflexivity|].
  destruct (p x); auto.
Qed.

Lemma rstrip_by_cons (p : N -> bool) (c : N) (s : str) :
  rstrip_by p (c :: s)
  = match rstrip_by p s with
    | [] => if p c then [] else [c]
    | r => c :: r
    end.
Proof.
  unfold rstrip_by. cbn [rev]. rewrite lstrip_by_app1.
  destruct (lstrip_by p (rev s)) as [|x l] eqn:E; cbn [rev].
  - destruct (p c); reflexivity.
  - rewrite rev_app_distr. cbn.
    destruct (rev l ++ [x]) eqn:E'; [|reflexivity].
    destruct (rev l); discriminate.
Qed.

Lemma length_lstrip_by (p : N -> bool) (s : str) :
  (length (lstrip_by p s) <= length s)%nat.
Proof.
  induction s as [|x s IH]; cbn; [lia|]. destruct (p x); cbn; lia.
Qed.

Lemma lstrip_by_head (p : N -> bool) (s : str) (c : N) (r : str) :
  lstrip_by p s = c :: r -> p c = false.
Proof.
  induction s as [|x s IH]; cbn; [discriminate|].
  destruct (p x) eqn:E; auto. intros [= <- _]. exact E.
Qed.

Lemma forallb_lstrip_by (f p : N -> bool) (s : str) :
  forallb f s = true -> forallb f (lstrip_by p s) = true.
Proof.
  induction s as [|x s IH]; cbn; auto.
  intros H. apply andb_true_iff in H as [Hx Hs].
  destruct (p x); auto. cbn. rewrite Hx, Hs. reflexivity.
Qed.

Lemma forallb_rev (f : N -> bool) (s : str) :
  forallb f (rev s) = forallb f s.
Proof.
  induction s as [|x s IH]; cbn; auto.
  rewrite forallb_app, IH. cbn. rewrite andb_true_r. apply andb_comm.
Qed.

Lemma forallb_strip_by (f p : N -> bool) (s : str) :
  forallb f s = true -> forallb f (strip_by p s) = true.
Proof.
  intros H. unfold strip_by, rstrip_by.
  rewrite forallb_rev. apply forallb_lstrip_by.
  rewrite forallb_rev. apply forallb_lstrip_by, H.
Qed.

Lemma forallb_collapse (f : N -> bool) (b : bool) (s : str) :
  f 32 = true -> forallb f s = true -> forallb f (collapse_aux b s) = true.
Proof.
  intros H32. revert b. induction s as [|x s IH]; intros b; cbn; auto.
  intros H. apply andb_true_iff in H as [Hx Hs].
  destruct (isspace x); [destruct b|]; cbn; rewrite ?H32, ?Hx; cbn;
    apply IH, Hs.
Qed.

Lemma nodouble_collapse (b : bool) (s : str) :
  nodouble b (collapse_aux b s) = true.
Proof.
  revert b. induction s as [|x s IH]; intros b; cbn; auto.
  destruct (isspace x) eqn:E.
  - destruct b; [apply IH|].
    cbn [nodouble]. rewrite isspace_32. cbn. apply IH.
  - cbn [nodouble]. rewrite E. apply IH.
Qed.

Lemma nodouble_weaken (b : bool) (s : str) :
  nodouble b s = true -> nodouble false s = true.
Proof.
  destruct s as [|x s]; cbn; auto.
  destruct (isspace x); auto.
  rewrite !andb_true_iff. intros [[_ ?] ?]. auto.
Qed.

Lemma nodouble_lstrip (b : bool) (s : str) :
  nodouble b s = true -> nodouble true (lstrip_by isspace s) = true.
Proof.
  revert b. induction s as [|x s IH]; intros b; cbn; auto.
  destruct (isspace x) eqn:E.
  - rewrite !andb_true_iff. intros [_ H]. eapply IH, H.
  - intros H. cbn. rewrite E. exact H.
Qed.

Lemma nodouble_rstrip (b : bool) (s : str) :
  nodouble b s = true -> nodouble b (rstrip_by isspace s) = true.
Proof.
  revert b. induction s as [|x s IH]; intros b; [auto|].
  rewrite rstrip_by_cons. cbn [nodouble].
  destruct (isspace x) eqn:E.
  - rewrite !andb_true_iff. intros [[Hb Hx] Hs].
    specialize (IH _ Hs).
    destruct (rstrip_by isspace s) as [|y r]; [reflexivity|].
    cbn [nodouble]. rewrite E, Hb, Hx. exact IH.
  - intros Hs. specialize (IH _ Hs).
    destruct (rstrip_by isspace s) as [|y r]; cbn [nodouble]; rewrite E; auto.
Qed.

Lemma ends_ws_rstrip (s : str) : ends_ws (rstrip_by isspace s) = false.
Proof.
  unfold ends_ws, rstrip_by. rewrite rev_involutive.
  destruct (lstrip_by isspace (rev s)) as [|c r] eqn:E; [reflexivity|].
  eapply lstrip_by_head, E.
Qed.

Lemma tidy_strip_collapse (s : str) :
  tidy (strip (collapse_aux false s)) = true.
Proof.
  unfold tidy, strip, strip_by.
  rewrite ends_ws_rstrip, andb_true_r.
  apply nodouble_rstrip. eapply nodouble_lstrip, nodouble_collapse.
Qed.

Lemma collapse_nodouble (b : bool) (s : str) :
  nodouble b s = true -> collapse_aux b s = s.
Proof.
  revert b. induction s as [|x s IH]; intros b; cbn; auto.
  destruct (isspace x).
  - rewrite !andb_true_iff. intros [[Hb Hx] Hs].
    apply negb_true_iff in Hb. apply N.eqb_eq in Hx. subst.
    rewrite IH; auto.
  - intros Hs. rewrite IH; auto.
Qed.

Lemma lstrip_nodouble (s : str) :
  nodouble true s = true -> lstrip_by isspace s = s.
Proof.
  destruct s as [|x s]; cbn; auto.
  destruct (isspace x); [discriminate | reflexivity].
Qed.

Lemma rstrip_ends (s : str) :
  ends_ws s = false -> rstrip_by isspace s = s.
Proof.
  unfold ends_ws, rstrip_by. intros H.
  destruct (rev s) as [|c r] eqn:E.
  - cbn. apply (f_equal (@rev N)) in E. rewrite rev_involutive in E. auto.
  - cbn [lstrip_by]. rewrite H. rewrite <- E. apply rev_involutive.
Qed.

Lemma strip_tidy (s : str) : tidy s = true -> strip s = s.
Proof.
  unfold tidy. rewrite andb_true_iff, negb_true_iff. intros [Hn He].
  unfold strip, strip_by. rewrite (lstrip_nodouble _ Hn). apply rstrip_ends, He.
Qed.

(** ** The substitution of [\s+] *)

Lemma ltb_succ (n : nat) : Nat.ltb n (S n) = true.
Proof. apply Nat.ltb_lt. lia. Qed.

Lemma rep_one_star (p : N -> bool) (fuel : nat) :
  forall prev s pos caps,
    (length s < fuel)%nat ->
    exists prev' pos',
      rep_loop (one p) Some fuel 0 None (MState prev s pos caps)
      = Some (MState prev' (lstrip_by p s) pos' caps)
      /\ (pos <= pos')%nat.
Proof.
  induction fuel as [|fuel IH]; intros prev s pos caps Hlen; [lia|].
  cbn [rep_loop]. unfold one at 1. cbn [st_rest st_pos st_caps].
  destruct s as [|c s]; [exists prev, pos; auto|].
  cbn [lstrip_by]. destruct (p c).
  - rewrite ltb_succ.
    cbn in Hlen.
    destruct (IH (Some c) s (S pos) caps ltac:(lia)) as (prev' & pos' & E & Hle).
    cbn [Nat.pred option_map]. rewrite E. exists prev', pos'. split; [auto|lia].
  - exists prev, pos; auto.
Qed.

Lemma rep_one_plus (p : N -> bool) (prev : option N) (s : str) (pos : nat) :
  match s with
  | c :: s' =>
      if p c
      then exists prev' pos',
             rep_loop (one p) Some (S (length s)) 1 None (MState prev s pos [])
             = Some (MState prev' (lstrip_by p s') pos' [])
             /\ (pos < pos')%nat
      else rep_loop (one p) Some (S (length s)) 1 None (MState prev s pos [])
           = None
  | [] => rep_loop (one p) Some (S (length s)) 1 None (MState prev s pos [])
          = None
  end.
Proof.
  destruct s as [|c s]; [reflexivity|].
  cbn [rep_loop]. unfold one at 1 3. cbn [st_rest st_pos st_caps].
  destruct (p c); [|reflexivity].
  rewrite ltb_succ. cbn [Nat.pred option_map length].
  destruct (rep_one_star p (S (length s)) (Some c) s (S pos) [] ltac:(lia))
    as (prev' & pos' & E & Hle).
  rewrite E. exists prev', pos'. split; [auto|lia].
Qed.

Lemma collapse_lstrip (s : str) :
  collapse_aux true s = collapse_aux false (lstrip_by isspace s).
Proof.
  induction s as [|c s IH]; cbn; auto.
  destruct (isspace c) eqn:E; auto. cbn. rewrite E. reflexivity.
Qed.

Lemma cls_ws (c : N) : cls_match false [ISpace] c = isspace c.
Proof. cbn. apply orb_false_r. Qed.

Lemma lstrip_by_ext (p q : N -> bool) (s : str) :
  (forall c, p c = q c) -> lstrip_by p s = lstrip_by q s.
Proof.
  intros H. induction s as [|c s IH]; cbn; auto. rewrite H, IH. reflexivity.
Qed.

Lemma match_here_ws (prev : option N) (pos : nat) (s : str) :
  match_here false (Plus ws) prev pos s
  = rep_loop (one (cls_match false [ISpace])) Some (S (length s)) 1 None
      (MState prev s pos []).
Proof. reflexivity. Qed.

Lemma sub_from_ws (fuel : nat) :
  forall prev pos s,
    (length s < fuel)%nat ->
    sub_from fuel false (Plus ws) (py " ") prev pos s = collapse_aux false s.
Proof.
  induction fuel as [|fuel IH]; intros prev pos s Hlen; [lia|].
  cbn [sub_from]. rewrite match_here_ws.
  pose proof (rep_one_plus (cls_match false [ISpace]) prev s pos) as H.
  destruct s as [|c s].
  - rewrite H. reflexivity.
  - rewrite cls_ws in H. cbn [collapse_aux]. cbn in Hlen.
    destruct (isspace c).
    + destruct H as (prev' & pos' & E & Hlt). rewrite E.
      cbn [st_pos st_prev st_rest]. apply Nat.ltb_lt in Hlt. rewrite Hlt.
      rewrite IH.
      * rewrite (lstrip_by_ext _ isspace) by apply cls_ws.
        rewrite collapse_lstrip. reflexivity.
      * pose proof (length_lstrip_by (cls_match false [ISpace]) s). lia.
    + rewrite H. rewrite IH by lia. reflexivity.
Qed.

Lemma squeeze_collapse (s : str) : squeeze s = strip (collapse_aux false s).
Proof.
  unfold squeeze, re_sub. rewrite sub_from_ws by lia. reflexivity.
Qed.

Lemma tidy_squeeze (s : str) : tidy (squeeze s) = true.
Proof. rewrite squeeze_collapse. apply tidy_strip_collapse. Qed.

Lemma squeeze_tidy (s : str) : tidy s = true -> squeeze s = s.
Proof.
  intros H. rewrite squeeze_collapse.
  rewrite collapse_nodouble; [apply strip_tidy, H|].
  unfold tidy in H. apply andb_true_iff in H as [H _].
  eapply nodouble_weaken, H.
Qed.

Lemma forallb_squeeze (f : N -> bool) (s : str) :
  f 32 = true -> forallb f s = true -> forallb f (squeeze s) = true.
Proof.
  intros H32 H. rewrite squeeze_collapse.
  apply forallb_strip_by, forallb_collapse; auto.
Qed.

(** ** [normalize_text] *)

Lemma filter_all (f : N -> bool) (s : str) :
  forallb f s = true -> List.filter f s = s.
Proof.
  induction s as [|c s IH]; cbn; auto.
  intros H. apply andb_true_iff in H as [Hc Hs]. rewrite Hc, IH; auto.
Qed.

Lemma forallb_filter_self (f : N -> bool) (s : str) :
  forallb f (List.filter f s) = true.
Proof.
  induction s as [|c s IH]; cbn; auto.
  destruct (f c) eqn:E; cbn; rewrite ?E; auto.
Qed.

Lemma replace_char_absent (a b : N) (s : str) :
  forallb (fun c => negb (c =? a)) s = true -> replace_char a b s = s.
Proof.
  induction s as [|c s IH]; cbn; auto.
  intros H. apply andb_true_iff in H as [Hc Hs].
  apply negb_true_iff in Hc. rewrite Hc. f_equal. apply IH, Hs.
Qed.

Lemma normalize_text_fixed (s : str) :
  normal s = true -> normalize_text s = s.
Proof.
  unfold normal. rewrite !andb_true_iff. intros [[Ha Hz] Ht].
  unfold normalize_text. destruct s as [|c s]; [reflexivity|].
  rewrite nfkd_ascii by exact Ha.
  rewrite filter_all by exact Ha.
  rewrite replace_char_absent by exact Hz.
  apply squeeze_tidy, Ht.
Qed.

Lemma normal_normalize_text (s : str) : normal (normalize_text s) = true.
Proof.
  unfold normalize_text. destruct s as [|c s]; [reflexivity|].
  set (u := replace_char 0 32 (List.filter is_ascii (nfkd (c :: s)))).
  assert (forallb is_ascii u = true) as Ha.
  { unfold u, replace_char. rewrite forallb_forall. intros x Hx.
    apply in_map_iff in Hx as (y & <- & Hy).
    apply filter_In in Hy as [_ Hy]. destruct (y =? 0); auto. }
  assert (forallb (fun c => negb (c =? 0)) u = true) as Hz.
  { unfold u, replace_char. rewrite forallb_forall. intros x Hx.
    apply in_map_iff in Hx as (y & <- & Hy).
    destruct (y =? 0) eqn:E; [reflexivity | rewrite E; reflexivity]. }
  unfold normal. rewrite tidy_squeeze, !forallb_squeeze; auto.
Qed.

(** C10.  [normalize_text] is idempotent: its result, which is ASCII, free
    of NUL, single-spaced and trimmed, is left as it is by a second
    call. *)
Theorem normalize_text_idempotent (s : str) :
  normalize_text (normalize_text s) = normalize_text s.
Proof. apply normalize_text_fixed, normal_normalize_text. Qed.

(** ** Expressions that cannot match *)

Lemma one_inv (I : str -> Prop) (p : N -> bool) (st : mstate)
    (k : mstate -> option mstate) :
  step_ok I p -> I (st_rest st) ->
  (forall st', I (st_rest st') -> k st' = None) ->
  one p st k = None.
Proof.
  intros Hp HI Hk. unfold one. destruct (st_rest st) as [|c s]; auto.
  destruct (p c) eqn:E; auto. apply Hk. cbn. eapply Hp; eauto.
Qed.

Lemma rep_loop_inv (I : str -> Prop)
    (m : mstate -> (mstate -> option mstate) -> option mstate) :
  (forall st k, I (st_rest st) ->
                (forall st', I (st_rest st') -> k st' = None) ->
                m st k = None) ->
  forall fuel lo hi st k,
    I (st_rest st) ->
    (forall st', I (st_rest st') -> k st' = None) ->
    rep_loop m k fuel lo hi st = None.
Proof.
  intros Hm. induction fuel as [|fuel IH]; intros lo hi st k HI Hk; auto.
  cbn [rep_loop].
  assert (forall h,
    m st (fun st' => if Nat.ltb (st_pos st) (st_pos st')
                     then rep_loop m k fuel (Nat.pred lo) h st' else None)
    = None) as Hstep.
  { intros h. apply Hm; auto. intros st' HI'.
    destruct (Nat.ltb (st_pos st) (st_pos st')); auto. }
  destruct hi as [[|h]|]; rewrite ?Hstep; destruct lo; auto.
Qed.

Lemma rmatch_inv (I : str -> Prop) (ic : bool) (r : re) :
  atoms_ok I ic r ->
  forall st k,
    I (st_rest st) ->
    (forall st', I (st_rest st') -> k st' = None) ->
    rmatch ic r st k = None.
Proof.
  induction r as [ |a| |l|l|r1 IH1 r2 IH2|r1 IH1 r2 IH2|r IH lo hi| | | |i r IH];
    cbn [atoms_ok rmatch]; intros Hok st k HI Hk.
  - auto.
  - apply (one_inv I); auto.
  - apply (one_inv I); auto.
  - apply (one_inv I); auto.
  - apply (one_inv I); auto.
  - destruct Hok as [H1 H2]. apply IH1; auto.
  - destruct Hok as [H1 H2]. rewrite IH1, IH2; auto.
  - apply (rep_loop_inv I); auto.
  - destruct (at_bol st); auto.
  - destruct (at_eol st); auto.
  - destruct (at_wb st); auto.
  - apply IH; auto.
Qed.

Lemma within_step (A : list N) (p : N -> bool) : step_ok (within A) p.
Proof.
  intros c s H _. unfold within in *. cbn in H.
  apply andb_true_iff in H. tauto.
Qed.

Lemma within_atoms (A : list N) (ic : bool) (r : re) :
  atoms_ok (within A) ic r.
Proof.
  induction r; cbn; auto using within_step.
Qed.

Lemma one_dead (A : list N) (p : N -> bool) (st : mstate)
    (k : mstate -> option mstate) :
  atom_dead p A = true -> within A (st_rest st) -> one p st k = None.
Proof.
  unfold atom_dead, within, one. intros Hd Hw.
  destruct (st_rest st) as [|c s]; auto.
  cbn in Hw. apply andb_true_iff in Hw as [Hc _].
  unfold mem in Hc. apply existsb_exists in Hc as (x & Hx & E).
  apply N.eqb_eq in E. subst x.
  rewrite forallb_forall in Hd. specialize (Hd _ Hx).
  apply negb_true_iff in Hd. rewrite Hd. reflexivity.
Qed.

Lemma rmatch_dead (A : list N) (ic : bool) (r : re) :
  dead ic A r = true ->
  forall st k, within A (st_rest st) -> rmatch ic r st k = None.
Proof.
  induction r as [ |a| |l|l|r1 IH1 r2 IH2|r1 IH1 r2 IH2|r IH lo hi| | | |i r IH];
    cbn [dead rmatch]; intros Hd st k Hw; try discriminate.
  - apply (one_dead A); auto.
  - apply (one_dead A); auto.
  - apply (one_dead A); auto.
  - apply (one_dead A); auto.
  - apply orb_true_iff in Hd as [Hd|Hd].
    + apply IH1; auto.
    + apply (rmatch_inv (within A)); auto using within_atoms.
  - apply andb_true_iff in Hd as [H1 H2]. rewrite IH1, IH2; auto.
  - apply andb_true_iff in Hd as [Hlo Hd].
    destruct lo as [|lo]; [discriminate|].
    cbn [rep_loop]. destruct hi as [[|h]|]; rewrite ?IH; auto.
  - apply IH; auto.
Qed.

Lemma sub_from_dead (A : list N) (ic : bool) (r : re) (repl : str) :
  dead ic A r = true ->
  forall fuel prev pos s,
    within A s -> sub_from fuel ic r repl prev pos s = s.
Proof.
  intros Hd. induction fuel as [|fuel IH]; intros prev pos s Hw; auto.
  cbn [sub_from]. unfold match_here.
  rewrite (rmatch_dead A) by auto.
  destruct s as [|c s]; auto.
  rewrite IH; auto.
  unfold within in *. cbn in Hw. apply andb_true_iff in Hw. tauto.
Qed.

Lemma re_sub_dead (A : list N) (ic : bool) (r : re) (repl s : str) :
  dead ic A r = true -> within A s -> re_sub ic r repl s = s.
Proof. intros. unfold re_sub. eapply sub_from_dead; eauto. Qed.

(** ** The trimming of the edges *)

Lemma rmatch_alt (ic : bool) (r1 r2 : re) (st : mstate)
    (k : mstate -> option mstate) :
  rmatch ic (Alt r1 r2) st k
  = match rmatch ic r1 st k with
    | Some x => Some x
    | None => rmatch ic r2 st k
    end.
Proof. reflexivity. Qed.

Lemma ends_edge_tail (c : N) (s : str) :
  ends_edge (c :: s) = true -> ends_edge s = true.
Proof.
  unfold ends_edge. cbn [rev].
  destruct (rev s) as [|x r]; [reflexivity|]. cbn. auto.
Qed.

Lemma ends_edge_exists (c : N) (s : str) :
  ends_edge (c :: s) = true -> existsb is_edge (c :: s) = true.
Proof.
  unfold ends_edge. intros H.
  destruct (rev (c :: s)) as [|x r] eqn:E.
  - apply (f_equal (@length N)) in E. rewrite length_rev in E. discriminate.
  - apply existsb_exists. exists x. split; auto.
    apply in_rev. rewrite E. left. reflexivity.
Qed.

Lemma plus_nonedge_stuck (prev : option N) (c : N) (s : str) (pos : nat)
    (k : mstate -> option mstate) :
  is_edge c = true ->
  rmatch false (Plus (NCls edge)) (MState prev (c :: s) pos []) k = None.
Proof.
  intros H. cbn [Plus rmatch rep_loop]. unfold one. cbn [st_rest].
  unfold is_edge in H. rewrite H. reflexivity.
Qed.

Lemma plus_nonedge_eol (prev : option N) (s : str) (pos : nat) :
  (s <> [] -> existsb is_edge s = true) ->
  rmatch false (Seq (Plus (NCls edge)) Eol) (MState prev s pos []) Some = None.
Proof.
  intros H. destruct s as [|c s]; [reflexivity|].
  specialize (H ltac:(discriminate)).
  cbn [rmatch].
  apply (rmatch_inv (fun rest => existsb is_edge rest = true)).
  - cbn. intros x r Hx Hn. cbn in Hx.
    apply negb_true_iff in Hn. unfold is_edge in Hx. rewrite Hn in Hx.
    exact Hx.
  - exact H.
  - intros st' H'. unfold at_eol.
    destruct (st_rest st') as [|x [|y r]]; try discriminate; [|reflexivity].
    cbn in H'. rewrite orb_false_r in H'.
    destruct (N.eqb_spec x 10) as [->|]; [discriminate | reflexivity].
Qed.

Lemma trim_here (prev : option N) (pos : nat) (s : str) :
  ends_edge s = true ->
  (prev = None -> match s with c :: _ => is_edge c = true | [] => True end) ->
  match_here false trim_edges prev pos s = None.
Proof.
  intros He Hh. unfold match_here, trim_edges. rewrite rmatch_alt.
  assert (rmatch false (Seq Bol (Plus (NCls edge))) (MState prev s pos [])
            Some = None) as ->.
  { cbn [rmatch]. unfold at_bol. cbn [st_prev].
    destruct prev; [reflexivity|].
    destruct s as [|c s]; [reflexivity|].
    apply plus_nonedge_stuck. auto. }
  apply plus_nonedge_eol. intros Hne.
  destruct s as [|c s]; [congruence|]. apply ends_edge_exists, He.
Qed.

Lemma sub_from_trim (fuel : nat) :
  forall prev pos s,
    ends_edge s = true ->
    (prev = None -> match s with c :: _ => is_edge c = true | [] => True end) ->
    sub_from fuel false trim_edges [] prev pos s = s.
Proof.
  induction fuel as [|fuel IH]; intros prev pos s He Hh; auto.
  cbn [sub_from]. rewrite trim_here by auto.
  destruct s as [|c s]; auto.
  rewrite IH; auto.
  - eapply ends_edge_tail, He.
  - discriminate.
Qed.

(** A text that starts and ends with a letter, a digit or one of [/&()]
    is left as it is. *)
Lemma re_sub_trim (c : N) (s : str) :
  is_edge c = true -> ends_edge (c :: s) = true ->
  re_sub false trim_edges [] (c :: s) = c :: s.
Proof. intros. apply sub_from_trim; auto. Qed.

(** ** Lower-case words *)

Ltac nsolve :=
  repeat match goal with
         | |- context [N.leb ?a ?b] => destruct (N.leb_spec a b)
         | |- context [N.ltb ?a ?b] => destruct (N.ltb_spec a b)
         | |- context [N.eqb ?a ?b] => destruct (N.eqb_spec a b)
         end; cbn; try reflexivity; try lia.

Ltac unfold_classes :=
  cbv [isspace isalpha isupper_c islower_c isword isdigit upper_c lower_c
       is_ascii ascii_isspace ascii_isalpha ascii_isword ascii_isupper
       ascii_islower ascii_isdigit ascii_upper ascii_lower in_range].

Lemma lower_range (c : N) : ascii_islower c = true -> 97 <= c <= 122.
Proof.
  unfold ascii_islower, in_range. rewrite andb_true_iff, !N.leb_le. auto.
Qed.

Lemma lower_classes (c : N) :
  ascii_islower c = true ->
  is_ascii c = true /\ isspace c = false /\ isalpha c = true
  /\ isupper_c c = false /\ islower_c c = true /\ isword c = true
  /\ upper_c c = [c - 32].
Proof.
  intros H%lower_range. unfold_classes. repeat split; nsolve.
Qed.

Lemma forallb_impl (f g : N -> bool) (s : str) :
  (forall c, f c = true -> g c = true) ->
  forallb f s = true -> forallb g s = true.
Proof.
  intros H. rewrite !forallb_forall. auto.
Qed.

Lemma existsb_none (f g : N -> bool) (s : str) :
  (forall c, f c = true -> g c = false) ->
  forallb f s = true -> existsb g s = false.
Proof.
  intros H Hs. induction s as [|c s IH]; cbn; auto.
  cbn in Hs. apply andb_true_iff in Hs as [Hc Hs].
  rewrite (H _ Hc), IH; auto.
Qed.

Lemma str_eqb_length (a b : str) :
  length a <> length b -> str_eqb a b = false.
Proof.
  intros H. destruct (str_eqb a b) eqn:E; auto.
  apply str_eqb_eq in E. subst. congruence.
Qed.

Lemma str_in_length (s : str) (l : list str) :
  Forall (fun x => length s <> length x) l -> str_in s l = false.
Proof.
  induction 1 as [|x l Hx Hl IH]; cbn; auto.
  rewrite str_eqb_length by auto. exact IH.
Qed.

Lemma length_upper_lower (t : str) :
  forallb ascii_islower t = true -> length (upper t) = length t.
Proof.
  unfold upper. induction t as [|c t IH]; cbn; auto.
  intros H. apply andb_true_iff in H as [Hc Ht].
  destruct (lower_classes c Hc) as (_ & _ & _ & _ & _ & _ & ->).
  cbn. rewrite IH; auto.
Qed.

Lemma search_cls_none (ic : bool) (l : list citem) (s : str) :
  forallb (fun c => negb (cls_match ic l c)) s = true ->
  forall prev pos, search_from ic (Cls l) prev pos s = None.
Proof.
  induction s as [|c s IH]; intros H prev pos; [reflexivity|].
  cbn in H. apply andb_true_iff in H as [Hc Hs].
  apply negb_true_iff in Hc.
  cbn [search_from]. unfold match_here. cbn [rmatch]. unfold one.
  cbn [st_rest]. rewrite Hc. apply IH, Hs.
Qed.

Lemma strip_word (t : str) :
  forallb (fun c => negb (isspace c)) t = true -> strip t = t.
Proof.
  intros H. apply strip_tidy. unfold tidy.
  assert (forall b, nodouble b t = true) as Hn.
  { induction t as [|c t IH]; intros b; cbn; auto.
    cbn in H. apply andb_true_iff in H as [Hc Ht].
    apply negb_true_iff in Hc. rewrite Hc. auto. }
  rewrite Hn. unfold ends_ws.
  rewrite <- forallb_rev in H.
  destruct (rev t) as [|c r]; auto.
  cbn in H. apply andb_true_iff in H as [Hc _]. rewrite Hc. reflexivity.
Qed.

Lemma split_ws_aux_word (w : str) :
  forallb (fun c => negb (isspace c)) w = true ->
  forall cur s, split_ws_aux cur (w ++ s) = split_ws_aux (rev w ++ cur) s.
Proof.
  induction w as [|c w IH]; intros H cur s; [reflexivity|].
  cbn in H. apply andb_true_iff in H as [Hc Hw].
  apply negb_true_iff in Hc.
  cbn [app split_ws_aux rev]. rewrite Hc, IH by auto.
  rewrite <- app_assoc. reflexivity.
Qed.

(** Two words and a space between them. *)
Lemma split_two (w1 w2 : str) :
  w1 <> [] -> w2 <> [] ->
  forallb (fun c => negb (isspace c)) w1 = true ->
  forallb (fun c => negb (isspace c)) w2 = true ->
  split (w1 ++ 32 :: w2) = [w1; w2].
Proof.
  intros H1 H2 Hw1 Hw2. unfold split.
  rewrite split_ws_aux_word by auto. rewrite app_nil_r.
  cbn [split_ws_aux]. rewrite isspace_32.
  destruct (rev w1) as [|x r] eqn:E1.
  { apply (f_equal (@rev N)) in E1. rewrite rev_involutive in E1. cbn in E1.
    congruence. }
  rewrite <- E1, rev_involutive.
  rewrite <- (app_nil_r w2) at 1.
  rewrite split_ws_aux_word by auto. rewrite app_nil_r.
  cbn [split_ws_aux].
  destruct (rev w2) as [|y r2] eqn:E2.
  { apply (f_equal (@rev N)) in E2. rewrite rev_involutive in E2. cbn in E2.
    congruence. }
  rewrite <- E2, rev_involutive. reflexivity.
Qed.

Lemma fullmatch_junk_lower (c : N) (t : str) :
  ascii_islower c = true ->
  re_fullmatch false (Rep (Cls [INonWord; ILit "_"]) 2 None) (c :: t) = None.
Proof.
  intros H. unfold re_fullmatch. cbn [rmatch rep_loop]. unfold one.
  cbn [st_rest].
  assert (cls_match false [INonWord; ILit "_"] c = false) as ->.
  { cbn. destruct (lower_classes c H) as (_ & _ & _ & _ & _ & -> & _).
    apply lower_range in H. nsolve. }
  reflexivity.
Qed.

Lemma alpha_ratio_lower (t : str) :
  forallb ascii_islower t = true -> t <> [] ->
  _alpha_ratio t = (length t, length t).
Proof.
  intros H Hne. unfold _alpha_ratio. destruct t as [|c t]; [congruence|].
  rewrite filter_all.
  - f_equal. cbn [length]. lia.
  - eapply forallb_impl; [|exact H]. intros x Hx.
    destruct (lower_classes x Hx) as (_ & _ & -> & _). reflexivity.
Qed.

Lemma ratio_lt_full (n num : nat) :
  (0 < n)%nat -> (num <= 100)%nat -> ratio_lt (n, n) num 100 = false.
Proof.
  intros Hn Hnum. unfold ratio_lt. cbn [fst snd]. apply Nat.ltb_ge. nia.
Qed.

(** A word of five lower-case letters or more with a vowel among them
    passes the token filter as it is. *)
Lemma keep_token_lower (t : str) :
  forallb ascii_islower t = true -> (5 <= length t)%nat ->
  _has_vowel t = true -> keep_token t = Some t.
Proof.
  intros Hl Hlen Hv.
  assert (forallb (fun c => negb (isspace c)) t = true) as Hws.
  { eapply forallb_impl; [|exact Hl]. intros c Hc.
    destruct (lower_classes c Hc) as (_ & -> & _). reflexivity. }
  assert (t <> []) as Hne by (intros ->; cbn in Hlen; lia).
  pose proof (length_upper_lower t Hl) as Hlu.
  unfold keep_token. cbv zeta. rewrite (strip_word t Hws).
  repeat rewrite (str_in_length (upper t))
    by (repeat constructor; rewrite Hlu; cbn; lia).
  rewrite (str_eqb_length (upper t)) by (rewrite Hlu; cbn; lia).
  destruct t as [|c t]; [congruence|].
  cbn in Hl. apply andb_true_iff in Hl as [Hc Ht].
  rewrite fullmatch_junk_lower by exact Hc.
  assert (forallb ascii_islower (c :: t) = true) as Hl
    by (cbn; rewrite Hc, Ht; reflexivity).
  set (w := c :: t) in *.
  assert (Nat.leb (length w) 2 = false) as -> by (apply Nat.leb_gt; lia).
  unfold re_found, re_search.
  rewrite !search_cls_none;
    try (eapply forallb_impl; [|exact Hl]; intros x Hx%lower_range;
         cbn; nsolve).
  assert (isupper w = false) as ->.
  { unfold isupper. rewrite (existsb_none ascii_islower); [reflexivity| |exact Hl].
    intros x Hx. destruct (lower_classes x Hx) as (_ & _ & _ & -> & _).
    reflexivity. }
  rewrite Hv, alpha_ratio_lower by auto.
  rewrite !ratio_lt_full by lia.
  cbn [found negb andb]. rewrite !andb_false_r. reflexivity.
Qed.

(** ** The strings [grown k] *)

Lemma within_app (A : list N) (a b : str) :
  within A a -> within A b -> within A (a ++ b).
Proof.
  unfold within. intros Ha Hb. rewrite forallb_app, Ha, Hb. reflexivity.
Qed.

Lemma within_ofs (A : list N) (k : nat) :
  within A (py "of") -> within A (ofs k).
Proof.
  intros H. induction k as [|k IH]; [reflexivity|].
  cbn [ofs]. apply within_app; auto.
Qed.

Lemma within_grown (k : nat) : within alphabet (grown k).
Proof.
  unfold grown. repeat apply within_app; try apply within_ofs; reflexivity.
Qed.

Lemma within_token (k : nat) : within (py "/D ofpum") (token k).
Proof.
  unfold token. repeat apply within_app; try apply within_ofs; reflexivity.
Qed.

Lemma token_lower (k : nat) : forallb ascii_islower (token k) = true.
Proof.
  unfold token. rewrite !forallb_app.
  assert (forallb ascii_islower (ofs k) = true) as ->; [|reflexivity].
  induction k as [|k IH]; [reflexivity|].
  cbn [ofs]. rewrite forallb_app, IH. reflexivity.
Qed.

Lemma length_ofs (k : nat) : length (ofs k) = (2 * k)%nat.
Proof.
  induction k as [|k IH]; [reflexivity|].
  cbn [ofs]. rewrite length_app, IH. cbn. lia.
Qed.

Lemma length_token (k : nat) : length (token k) = (6 + 2 * k)%nat.
Proof.
  unfold token. rewrite !length_app, length_ofs. cbn. lia.
Qed.

Lemma length_grown (k : nat) : length (grown k) = (10 + 2 * k)%nat.
Proof.
  unfold grown. rewrite !length_app, length_ofs. cbn. lia.
Qed.

Lemma grown_token (k : nat) : grown k = py "V/D" ++ 32 :: token k.
Proof. reflexivity. Qed.

Lemma grown_cons (k : nat) : grown k = 86 :: (py "/D " ++ token k).
Proof. reflexivity. Qed.

Lemma token_words (k : nat) :
  forallb (fun c => negb (isspace c)) (token k) = true.
Proof.
  eapply forallb_impl; [|apply token_lower]. intros c Hc.
  destruct (lower_classes c Hc) as (_ & -> & _). reflexivity.
Qed.

Lemma nodouble_word (w : str) :
  forallb (fun c => negb (isspace c)) w = true ->
  forall b, nodouble b w = true.
Proof.
  induction w as [|c w IH]; intros H b; [reflexivity|].
  cbn in H. apply andb_true_iff in H as [Hc Hw].
  apply negb_true_iff in Hc. cbn. rewrite Hc. auto.
Qed.

Lemma ends_ws_app1 (a : str) (c : N) : ends_ws (a ++ [c]) = isspace c.
Proof. unfold ends_ws. rewrite rev_app_distr. reflexivity. Qed.

Lemma ends_edge_app1 (a : str) (c : N) : ends_edge (a ++ [c]) = is_edge c.
Proof. unfold ends_edge. rewrite rev_app_distr. reflexivity. Qed.

Lemma grown_last (k : nat) :
  grown k = (py "V/D of" ++ ofs k ++ py "pum") ++ [112].
Proof.
  unfold grown. rewrite <- !app_assoc. reflexivity.
Qed.

Lemma tidy_grown (k : nat) : tidy (grown k) = true.
Proof.
  unfold tidy. apply andb_true_iff. split.
  - rewrite grown_token. cbn. apply nodouble_word, token_words.
  - rewrite grown_last, ends_ws_app1. reflexivity.
Qed.

Lemma normal_grown (k : nat) : normal (grown k) = true.
Proof.
  unfold normal. rewrite tidy_grown, andb_true_r.
  apply andb_true_iff. split.
  - eapply forallb_impl; [|apply within_grown].
    intros c Hc. unfold mem in Hc. apply existsb_exists in Hc as (x & Hx & E).
    apply N.eqb_eq in E. subst.
    cbn in Hx. intuition (subst; reflexivity).
  - eapply forallb_impl; [|apply within_grown].
    intros c Hc. unfold mem in Hc. apply existsb_exists in Hc as (x & Hx & E).
    apply N.eqb_eq in E. subst.
    cbn in Hx. intuition (subst; reflexivity).
Qed.

Lemma grown_nonempty (k : nat) : grown k <> [].
Proof. rewrite grown_cons. discriminate. Qed.

Lemma squeeze_grown (k : nat) : squeeze (grown k) = grown k.
Proof. apply squeeze_tidy, tidy_grown. Qed.

Lemma strip_grown (k : nat) : strip (grown k) = grown k.
Proof. apply strip_tidy, tidy_grown. Qed.

(** ** One pass of the loop on [grown k] *)

Lemma vd_any_here (k : nat) :
  match_here true vd_any None 0 (grown k)
  = Some (MState (Some 32) (token k) 4 []).
Proof. destruct k; vm_compute; reflexivity. Qed.

Lemma vd_slash_of_here (k : nat) :
  match_here true vd_slash_of None 0 (grown (S k)) = None.
Proof. vm_compute; reflexivity. Qed.

(** The first rule takes "V/D " and the space, and puts "V/D of" there:
    one more "of". *)
Lemma vd_any_grown (k : nat) :
  re_sub true vd_any (py "V/D of") (grown k) = grown (S k).
Proof.
  unfold re_sub. cbn [sub_from]. rewrite vd_any_here.
  cbn [st_pos st_prev st_rest]. change (Nat.ltb 0 4) with true. cbv iota.
  rewrite (sub_from_dead (py "/D ofpum")).
  - reflexivity.
  - vm_compute; reflexivity.
  - apply within_token.
Qed.

Lemma vd_slash_of_grown (k : nat) :
  re_sub true vd_slash_of (py "V/D of") (grown (S k)) = grown (S k).
Proof.
  unfold re_sub. cbn [sub_from]. rewrite vd_slash_of_here.
  rewrite (grown_cons (S k)) at 1 2.
  rewrite (sub_from_dead (py "/D ofpum")).
  - reflexivity.
  - vm_compute; reflexivity.
  - apply within_app; [reflexivity | apply within_token].
Qed.

Ltac dead_subs :=
  repeat match goal with
         | |- context [re_sub ?ic ?r ?repl (grown ?n)] =>
             rewrite (re_sub_dead alphabet ic r repl (grown n))
               by first [apply within_grown | vm_compute; reflexivity]
         end.

Lemma canon_grown (k : nat) :
  _normalize_title_terms (grown k) = grown (S k).
Proof.
  unfold _normalize_title_terms.
  destruct (grown k) eqn:E; [apply grown_nonempty in E; tauto|].
  rewrite <- E. clear E.
  rewrite normalize_text_fixed by apply normal_grown.
  unfold apply_rules, term_rules. cbn [fold_left].
  rewrite vd_any_grown, vd_slash_of_grown.
  dead_subs. apply squeeze_grown.
Qed.

Lemma upper_app (a b : str) : upper (a ++ b) = upper a ++ upper b.
Proof. apply flat_map_app. Qed.

Lemma startswith_app (p s : str) : startswith p (p ++ s) = true.
Proof.
  induction p as [|x p IH]; cbn; auto. rewrite N.eqb_refl. exact IH.
Qed.

Lemma slice_grown (k : nat) :
  _slice_from_first_anchor (grown k) = grown (S k).
Proof.
  unfold _slice_from_first_anchor.
  destruct (grown k) eqn:E; [apply grown_nonempty in E; tauto|].
  rewrite <- E. clear E.
  rewrite canon_grown. cbv zeta.
  assert (startswith (py "V/D OF") (upper (grown (S k))) = true) as ->;
    [|reflexivity].
  unfold grown. rewrite upper_app.
  change (upper (py "V/D of")) with (py "V/D OF").
  apply startswith_app.
Qed.

Lemma stamp_grown (k : nat) : _strip_stamp_fragments (grown k) = grown k.
Proof.
  unfold _strip_stamp_fragments.
  destruct (grown k) eqn:E; [apply grown_nonempty in E; tauto|].
  rewrite <- E. clear E.
  rewrite normalize_text_fixed by apply normal_grown.
  cbv zeta. dead_subs. apply squeeze_grown.
Qed.

Lemma has_vowel_token (k : nat) : _has_vowel (token k) = true.
Proof. reflexivity. Qed.

Lemma drop_grown (k : nat) : _drop_garbage_tokens (grown k) = grown k.
Proof.
  unfold _drop_garbage_tokens.
  destruct (grown k) eqn:E; [apply grown_nonempty in E; tauto|].
  rewrite <- E. clear E.
  rewrite grown_token at 1.
  rewrite split_two.
  - cbn [omap list_omap].
    change (keep_token (py "V/D")) with (Some (py "V/D")).
    rewrite keep_token_lower.
    + change (join (py " ") [py "V/D"; token k]) with (grown k).
      apply squeeze_grown.
    + apply token_lower.
    + rewrite length_token. lia.
    + apply has_vowel_token.
  - discriminate.
  - discriminate.
  - reflexivity.
  - apply token_words.
Qed.

Lemma prefix_grown (k : nat) :
  strip (re_sub true prefix_pattern [] (grown k)) = grown k.
Proof. dead_subs. apply strip_grown. Qed.

Lemma trim_grown (k : nat) :
  strip (re_sub false trim_edges [] (grown k)) = grown k.
Proof.
  rewrite (grown_cons k) at 1. rewrite re_sub_trim.
  - rewrite <- grown_cons. apply strip_grown.
  - reflexivity.
  - rewrite <- grown_cons, grown_last, ends_edge_app1. reflexivity.
Qed.

(** A pass adds "of" twice. *)
Lemma clean_pass_grown (k : nat) : clean_pass (grown k) = grown (S (S k)).
Proof.
  unfold clean_pass. cbv zeta.
  rewrite trim_grown, slice_grown, stamp_grown, drop_grown, canon_grown.
  apply prefix_grown.
Qed.

(** The loop does not stop on [grown k], however many passes it takes. *)
Lemma clean_loop_grown (passes : nat) :
  forall k, clean_loop passes (grown k) = None.
Proof.
  induction passes as [|p IH]; intros k; [reflexivity|].
  cbn [clean_loop]. rewrite clean_pass_grown.
  rewrite str_eqb_length; [apply IH|].
  rewrite !length_grown. lia.
Qed.

Lemma clean_manual_name_none (passes : nat) (name : str) :
  clean_loop passes (_normalize_title_terms name) = None ->
  name <> [] ->
  clean_manual_name passes name = None.
Proof.
  intros H Hne. unfold clean_manual_name.
  destruct name; [congruence|]. rewrite H. reflexivity.
Qed.

(** C2 at the input "V/D pump": the canonical form is "V/D ofpump", each
    pass of the loop puts two more "of" into it, and [clean_manual_name]
    does not come back, however many passes it is given. *)
Theorem clean_manual_name_diverges (passes : nat) :
  clean_manual_name passes (py "V/D pump") = None.
Proof.
  apply clean_manual_name_none; [|discriminate].
  assert (_normalize_title_terms (py "V/D pump") = grown 0) as ->.
  { unfold _normalize_title_terms. cbn [py map list_ascii_of_string].
    rewrite normalize_text_fixed by (vm_compute; reflexivity).
    vm_compute; reflexivity. }
  apply clean_loop_grown.
Qed.

(** ** The meaningfulness check *)

(** C5.  [_is_meaningful_title] accepts a string exactly when it starts
    with "V/D OF" whatever the case, or has three words or more of three
    characters or more and its upper-cased form contains a term of
    [SYSTEM_KEYWORDS] or one of PLAN, LIST, ARRANGEMENT, INSTALLATION,
    DOOR, INSULATION, CRANE, BEAM, SYSTEM, PLANT; every other string, the
    empty one among them, is rejected. *)
Theorem is_meaningful_title_iff (s : str) :
  _is_meaningful_title s = true <-> meaningful_spec s.
Proof.
  unfold meaningful_spec, long_words.
  rewrite <- !any_in_Exists.
  destruct s as [|c s].
  - cbn. split; [discriminate|].
    intros [H|[H _]]; [discriminate | inversion H].
  - unfold _is_meaningful_title.
    set (t := c :: s).
    set (words := List.filter _ (split t)).
    destruct (startswith (py "V/D OF") (upper t)) eqn:Hvd.
    + rewrite andb_false_r. split; auto.
    + rewrite andb_true_r.
      destruct (Nat.ltb (length words) 3) eqn:Hlen.
      * apply Nat.ltb_lt in Hlen. split; [discriminate|].
        intros [H|[H _]]; [discriminate | lia].
      * apply Nat.ltb_ge in Hlen.
        destruct (any_in SYSTEM_KEYWORDS (upper t)) eqn:Hk.
        { split; auto. }
        destruct (any_in title_extras (upper t)) eqn:Hx.
        { split; auto. }
        split; [discriminate|].
        intros [H|[_ [H|H]]]; discriminate.
Qed.

(** ** The document classifier *)

(** C6, as amended.  When the combined lower-cased text contains "v/d" or
    "v/dwg", does not contain "manual" and matches none of the first
    three buckets, [classify_doc_type] answers "Drawing" (bucket 4). *)
Theorem classify_vendor_drawing (text filename : option str)
    (folder_path : str) :
  contains (py "v/d") (combined_text text filename folder_path) = true
  \/ contains (py "v/dwg") (combined_text text filename folder_path) = true ->
  contains (py "manual") (combined_text text filename folder_path) = false ->
  any_in manual_words (combined_text text filename folder_path) = false ->
  any_in capacity_words (combined_text text filename folder_path) = false ->
  any_in certificate_words (combined_text text filename folder_path) = false ->
  classify_doc_type text filename folder_path = py "Drawing".
Proof.
  intros Hvd Hman H1 H2 H3.
  unfold classify_doc_type.
  rewrite H1, H2, H3, Hman.
  assert (any_in drawing_words (combined_text text filename folder_path)
          = true) as ->; [|reflexivity].
  destruct Hvd as [H|H];
    (eapply any_in_intro; [|exact H]);
    unfold drawing_words; simpl; tauto.
Qed.

(** The label of [classify_doc_type] is one of the five of the
    vocabulary, and "Unknown" when no bucket matches. *)
Lemma classify_doc_type_label (text filename : option str)
    (folder_path : str) :
  In (classify_doc_type text filename folder_path)
     (map py ["Machinery/System Manual"; "Capacity Plan / Datasheet";
              "Certificate / Report"; "Drawing"; "Unknown"]%string).
Proof.
  unfold classify_doc_type.
  repeat match goal with
         | |- context [if ?b then _ else _] => destruct b
         end; simpl; tauto.
Qed.

Lemma classify_doc_type_unknown (text filename : option str)
    (folder_path : str) :
  any_in (manual_words ++ capacity_words ++ certificate_words
          ++ drawing_words ++ equipment_words ++ structure_words)
    (combined_text text filename folder_path) = false ->
  classify_doc_type text filename folder_path = py "Unknown".
Proof.
  unfold classify_doc_type, any_in. cbv zeta.
  rewrite !existsb_app, !orb_false_iff.
  intros (-> & -> & -> & -> & -> & ->). reflexivity.
Qed.

(** ** The title of the metadata *)

(** C7, as amended.  When strategies 1 to 6 fall through and the
    metadata has under "/Title" a value whose trimmed form is longer than
    5 and is none of "untitled", "none", "1" whatever the case, the
    cleaned title is returned if it is meaningful; the fallback is not
    tried. *)
Theorem metadata_title_returned (passes : nat) (text filename : option str)
    (folder_path : option str) (md : gmap str str) (v cleaned : str) :
  text_strategies passes text filename = Some None ->
  md !! py "/Title" = Some v ->
  (5 < length (strip v))%nat ->
  str_in (lower (strip v)) (map py ["untitled"; "none"; "1"]%string) = false ->
  clean_manual_name passes (strip v) = Some cleaned ->
  _is_meaningful_title cleaned = true ->
  identify_manual_name passes text filename folder_path (Some md)
  = Some cleaned.
Proof.
  intros Hs Hmd Hlen Hnot Hclean Hmean.
  unfold identify_manual_name. rewrite Hs. cbn [or_else].
  unfold metadata_title. rewrite Hmd.
  destruct v as [|c v]; [cbn in Hlen; lia|].
  apply Nat.ltb_lt in Hlen. rewrite Hlen, Hnot. cbn [negb andb].
  unfold return_if_clean. rewrite Hclean, Hmean.
  destruct cleaned; [discriminate|]. reflexivity.
Qed.

(** ** The confidence logic *)

Lemma metadata_agrees_dec (md : gmap str str) (name : str) :
  metadata_agrees (py "/Title") md name
  <-> match md !! py "/Title" with
      | Some v => nonempty (upper (strip v))
                  && contains (upper (strip v)) (upper name) = true
      | None => False
      end.
Proof.
  unfold metadata_agrees. destruct (md !! py "/Title") as [v|].
  - rewrite andb_true_iff. split.
    + intros (w & [= <-] & Hne & Hc). split; auto.
      destruct (upper (strip v)); [congruence | reflexivity].
    + intros [Hne Hc]. exists v. repeat split; auto.
      intros E. rewrite E in Hne. discriminate.
  - split; [intros (w & H & _); discriminate | tauto].
Qed.

(** C8, as amended.  The level starts at "Low"; the clue "Text content"
    is there exactly when the text is not blank; the level is "High", and
    the clue "Metadata match" there, exactly when the metadata has under
    "/Title" a title that is not blank and whose upper-cased trimmed form
    occurs in the upper-cased name; short of that the level is "Med"
    exactly when the text is not blank, and "Low" otherwise; "manual" in
    the lower-cased file name or parent folder adds the clue "Keyword
    clue", and neither of the two changes the level. *)
Theorem confidence_logic_spec (content : str) (md : gmap str str)
    (name file parent : str) :
  (In (py "Text content") (snd (confidence_logic content md name file parent))
   <-> strip content <> [])
  /\ (In (py "Metadata match")
         (snd (confidence_logic content md name file parent))
      <-> metadata_agrees (py "/Title") md name)
  /\ (fst (confidence_logic content md name file parent) = py "High"
      <-> metadata_agrees (py "/Title") md name)
  /\ (fst (confidence_logic content md name file parent) = py "Med"
      <-> strip content <> [] /\ ~ metadata_agrees (py "/Title") md name)
  /\ (fst (confidence_logic content md name file parent) = py "Low"
      <-> strip content = [] /\ ~ metadata_agrees (py "/Title") md name)
  /\ (contains (py "manual") (lower file) = true
      \/ (exists dir folder, parent = dir ++ folder
                             /\ contains (py "manual") (lower folder) = true) ->
      In (py "Keyword clue")
         (snd (confidence_logic content md name file parent)))
  /\ (forall file' parent',
        fst (confidence_logic content md name file' parent')
        = fst (confidence_logic content md name file parent)).
Proof.
  assert (contains (py "manual") (lower file) = true
          \/ (exists dir folder, parent = dir ++ folder
                /\ contains (py "manual") (lower folder) = true) ->
          contains (py "manual") (lower file) = true
          \/ contains (py "manual") (lower parent) = true) as Hparent.
  { intros [H|(dir & folder & -> & H)]; [left; exact H | right].
    unfold lower. rewrite flat_map_app. apply contains_app_r, H. }
  revert Hparent.
  generalize (exists dir folder, parent = dir ++ folder
                /\ contains (py "manual") (lower folder) = true).
  intros P Hparent.
  rewrite metadata_agrees_dec.
  unfold confidence_logic.
  destruct (strip content) as [|c0 s0] eqn:Hc;
  destruct (md !! py "/Title") as [[|v0 v]|] eqn:Hmd; cbn [nonempty];
  try destruct (nonempty (upper (strip (v0 :: v)))
                && contains (upper (strip (v0 :: v))) (upper name)) eqn:Hhit;
  destruct (contains (py "manual") (lower file)
            || contains (py "manual") (lower parent)) eqn:Hkw;
  cbn -[py]; vm_compute py in Hkw, Hparent |- *;
  repeat split;
  try solve [ intros; exfalso; intuition (discriminate || congruence)
            | intros; intuition (discriminate || congruence)
            | intros H; apply Hparent in H as [H|H];
              [rewrite H in Hkw | rewrite H, orb_true_r in Hkw];
              discriminate ].
Qed.

(** ** The loop of [clean_manual_name] *)


(** More passes do not change what the loop returns. *)
Lemma clean_loop_mono (p q : nat) (name r : str) :
  clean_loop p name = Some r -> (p <= q)%nat -> clean_loop q name = Some r.
Proof.
  revert q name. induction p as [|p IH]; intros q name; [discriminate|].
  intros H Hle. destruct q as [|q]; [lia|].
  cbn [clean_loop] in *.
  destruct (str_eqb (clean_pass name) name); [exact H|].
  apply IH; [exact H | lia].
Qed.

Lemma clean_manual_name_mono (p q : nat) (name r : str) :
  clean_manual_name p name = Some r -> (p <= q)%nat ->
  clean_manual_name q name = Some r.
Proof.
  unfold clean_manual_name. destruct name as [|c name]; [auto|].
  destruct (clean_loop p _) eqn:E; [|discriminate].
  intros H Hle. rewrite (clean_loop_mono p q _ _ E Hle). exact H.
Qed.

(** ** Matching with and without [re.IGNORECASE] *)

Lemma item_match_mono (i : citem) (c : N) :
  item_match false i c = true -> item_match true i c = true.
Proof.
  destruct i; cbn; auto.
  - intros H. apply N.eqb_eq in H. subst. apply N.eqb_refl.
  - intros H. apply orb_true_iff in H as [H|H]; [|discriminate].
    rewrite H. reflexivity.
  - intros H. apply N.eqb_eq in H. subst. apply N.eqb_refl.
Qed.

Lemma cls_match_mono (l : list citem) (c : N) :
  cls_match false l c = true -> cls_match true l c = true.
Proof.
  unfold cls_match. rewrite !existsb_exists.
  intros (i & Hi & Hm). exists i. split; auto using item_match_mono.
Qed.

Lemma one_mono (p q : N -> bool) (st : mstate)
    (k k' : mstate -> option mstate) :
  (forall c, p c = true -> q c = true) ->
  (forall st', k st' <> None -> k' st' <> None) ->
  one p st k <> None -> one q st k' <> None.
Proof.
  intros Hpq Hk. unfold one. destruct (st_rest st) as [|c s]; auto.
  destruct (p c) eqn:E; [|congruence].
  rewrite (Hpq _ E). apply Hk.
Qed.

Lemma rep_loop_mono
    (m m' : mstate -> (mstate -> option mstate) -> option mstate) :
  (forall st k k', (forall st', k st' <> None -> k' st' <> None) ->
                   m st k <> None -> m' st k' <> None) ->
  forall fuel lo hi st k k',
    (forall st', k st' <> None -> k' st' <> None) ->
    rep_loop m k fuel lo hi st <> None ->
    rep_loop m' k' fuel lo hi st <> None.
Proof.
  intros Hm. induction fuel as [|fuel IH]; intros lo hi st k k' Hk; [auto|].
  cbn [rep_loop].
  assert (forall h,
    m st (fun st' => if Nat.ltb (st_pos st) (st_pos st')
                     then rep_loop m k fuel (Nat.pred lo) h st' else None)
    <> None ->
    m' st (fun st' => if Nat.ltb (st_pos st) (st_pos st')
                      then rep_loop m' k' fuel (Nat.pred lo) h st' else None)
    <> None) as Hstep.
  { intros h. apply Hm. intros st'.
    destruct (Nat.ltb (st_pos st) (st_pos st')); [apply IH; exact Hk | auto]. }
  destruct hi as [[|h]|].
  - destruct lo; auto.
  - specialize (Hstep (option_map Nat.pred (Some (S h)))).
    destruct (m st _) eqn:E.
    + intros _. destruct (m' st _); [congruence|]. exfalso.
      apply Hstep; congruence.
    + destruct (m' st _); [congruence|]. destruct lo; auto.
  - specialize (Hstep (option_map Nat.pred None)).
    destruct (m st _) eqn:E.
    + intros _. destruct (m' st _); [congruence|]. exfalso.
      apply Hstep; congruence.
    + destruct (m' st _); [congruence|]. destruct lo; auto.
Qed.

Lemma rmatch_ic_mono (r : re) :
  positive r = true ->
  forall st k k',
    (forall st', k st' <> None -> k' st' <> None) ->
    rmatch false r st k <> None -> rmatch true r st k' <> None.
Proof.
  induction r as [ |a| |l|l|r1 IH1 r2 IH2|r1 IH1 r2 IH2|r IH lo hi| | | |i r IH];
    cbn [positive rmatch]; intros Hp st k k' Hk.
  - apply Hk.
  - apply one_mono; auto. apply item_match_mono.
  - apply one_mono; auto.
  - apply one_mono; auto. apply cls_match_mono.
  - discriminate.
  - apply andb_true_iff in Hp as [Hp1 Hp2].
    apply IH1; auto. intros st'. apply IH2; auto.
  - apply andb_true_iff in Hp as [Hp1 Hp2].
    specialize (IH1 Hp1 st k k' Hk). specialize (IH2 Hp2 st k k' Hk).
    destruct (rmatch false r1 st k).
    + intros _. destruct (rmatch true r1 st k'); [congruence|].
      exfalso. apply IH1; congruence.
    + destruct (rmatch true r1 st k'); [congruence|]. exact IH2.
  - apply rep_loop_mono; auto. apply IH, Hp.
  - destruct (at_bol st); auto.
  - destruct (at_eol st); auto.
  - destruct (at_wb st); auto.
  - apply IH; auto.
Qed.

Lemma re_match_ic (r : re) (s : str) :
  positive r = true ->
  found (re_match false r s) = true -> found (re_match true r s) = true.
Proof.
  intros Hp. unfold re_match, match_here.
  pose proof (rmatch_ic_mono r Hp (MState None s 0 []) Some Some) as H.
  destruct (rmatch false r _ Some); [|discriminate].
  intros _. destruct (rmatch true r _ Some); [reflexivity|].
  exfalso. apply H; congruence.
Qed.

(** ** The file name of a numbered drawing *)

(** C4.  When the stem of the file name matches [^[A-Z]+\([A-Z]\)-\d+],
    the rest of it, with "_" and "-" turned into spaces, counts two words
    or more of two characters or more, and [clean_manual_name] makes a
    string of it that is not empty, [identify_manual_name] returns that
    string, whatever the text, the folder and the metadata are, and
    without the meaningfulness check. *)
Theorem drawing_rule_first (passes : nat) (text filename : option str)
    (folder_path : option str) (metadata : option (gmap str str))
    (cleaned : str) :
  found (re_match false (seqs drawing_prefix) (filename_stem filename)) = true ->
  two_words (fn_clean_of (filename_stem filename)) ->
  clean_manual_name passes (fn_clean_of (filename_stem filename))
  = Some cleaned ->
  cleaned <> [] ->
  identify_manual_name passes text filename folder_path metadata
  = Some cleaned.
Proof.
  intros Hm Hw Hc Hne.
  apply re_match_ic in Hm; [|reflexivity].
  unfold identify_manual_name, text_strategies. cbv zeta.
  unfold drawing_rule, is_drawing_prefix. rewrite Hm.
  apply Nat.leb_le in Hw. rewrite Hw.
  unfold return_if_clean. rewrite Hc.
  destruct cleaned; [congruence|]. reflexivity.
Qed.

End Properties.

(** * The properties at concrete inputs

    The inputs below are ASCII, so that [ascii_runtime] computes on them
    what any runtime does. *)



Lemma drawing_rule_first_witness :
  found (re_match false (seqs drawing_prefix)
           (filename_stem (Some (py "M(A)-12 MAIN ENGINE ARRANGEMENT.pdf"))))
  = true
  /\ identify_manual_name 10 (Some []) (Some (py "M(A)-12 MAIN ENGINE ARRANGEMENT.pdf"))
       (Some []) None
     = Some (py "MAIN Engine Arrangement").
Proof.
  split; [vm_compute; reflexivity|].
  apply drawing_rule_first.
  - vm_compute; reflexivity.
  - unfold two_words. vm_compute. lia.
  - vm_compute; reflexivity.
  - vm_compute; discriminate.
Defined.

(** C6 fails as stated: "v-d of pump" contains "v-d", no "manual" and
    nothing of the first three buckets, and is not a "Drawing". *)
Lemma classify_hyphen_not_drawing :
  contains (py "v-d")
    (combined_text (Some (py "v-d of pump")) (Some (py "x.pdf")) []) = true
  /\ contains (py "manual")
       (combined_text (Some (py "v-d of pump")) (Some (py "x.pdf")) []) = false
  /\ any_in (manual_words ++ capacity_words ++ certificate_words)
       (combined_text (Some (py "v-d of pump")) (Some (py "x.pdf")) []) = false
  /\ classify_doc_type (Some (py "v-d of pump")) (Some (py "x.pdf")) []
     = py "Unknown"
  /\ py "Unknown" <> py "Drawing".
Proof.
  repeat split; try (vm_compute; reflexivity).
  vm_compute. discriminate.
Qed.

Lemma classify_vendor_drawing_witness :
  contains (py "v/d")
    (combined_text (Some (py "V/D of pump")) (Some (py "x.pdf")) []) = true
  /\ classify_doc_type (Some (py "V/D of pump")) (Some (py "x.pdf")) []
     = py "Drawing".
Proof.
  split; [vm_compute; reflexivity|].
  apply classify_vendor_drawing;
    try (vm_compute; reflexivity).
  left. vm_compute; reflexivity.
Defined.

(** C7 fails as stated, in two ways.  A title under the key "Title" is
    not looked at, and the fallback decides.  And under "/Title" the
    length that counts is the one of the trimmed value: "V-D" with three
    spaces after it is longer than 5 and cleans to the meaningful
    "V/D of", yet the fallback decides as well. *)
Lemma metadata_title_key_ignored :
  text_strategies 10 (Some []) (Some (py "x.pdf")) = Some None
  /\ (({[ py "Title" := py "MAIN ENGINE ARRANGEMENT" ]} : gmap str str)
        !! py "Title" = Some (py "MAIN ENGINE ARRANGEMENT")
      /\ (5 < length (py "MAIN ENGINE ARRANGEMENT"))%nat
      /\ clean_manual_name 10 (py "MAIN ENGINE ARRANGEMENT")
         = Some (py "MAIN Engine Arrangement")
      /\ _is_meaningful_title (py "MAIN Engine Arrangement") = true
      /\ identify_manual_name 10 (Some []) (Some (py "x.pdf")) (Some [])
           (Some {[ py "Title" := py "MAIN ENGINE ARRANGEMENT" ]})
         = Some [])
  /\ (({[ py "/Title" := py "V-D   " ]} : gmap str str)
        !! py "/Title" = Some (py "V-D   ")
      /\ (5 < length (py "V-D   "))%nat
      /\ clean_manual_name 10 (py "V-D   ") = Some (py "V/D of")
      /\ _is_meaningful_title (py "V/D of") = true
      /\ identify_manual_name 10 (Some []) (Some (py "x.pdf")) (Some [])
           (Some {[ py "/Title" := py "V-D   " ]})
         = Some []).
Proof.
  repeat split; try (vm_compute; reflexivity); vm_compute; lia.
Qed.

Lemma metadata_title_returned_witness :
  text_strategies 10 (Some []) (Some (py "x.pdf")) = Some None
  /\ identify_manual_name 10 (Some []) (Some (py "x.pdf")) (Some [])
       (Some {[ py "/Title" := py " MAIN ENGINE ARRANGEMENT " ]})
     = Some (py "MAIN Engine Arrangement").
Proof.
  split; [vm_compute; reflexivity|].
  apply (metadata_title_returned 10 _ _ _ _ (py " MAIN ENGINE ARRANGEMENT "));
    try (vm_compute; reflexivity).
  vm_compute. lia.
Defined.

(** C8 fails as stated: the trimmed form of a blank title occurs in every
    name, and the level stays "Low". *)
Lemma blank_title_not_high :
  ({[ py "/Title" := py " " ]} : gmap str str) !! py "/Title" = Some (py " ")
  /\ contains (upper (strip (py " "))) (upper (py "Main Engine Cooler")) = true
  /\ confidence_logic [] {[ py "/Title" := py " " ]} (py "Main Engine Cooler")
       (py "x.pdf") (py "/ships/hull1")
     = (py "Low", []).
Proof.
  repeat split; vm_compute; reflexivity.
Qed.

(** C3 at the input "V-D OF, pump": its canonical form starts with
    "V/D of"; the token filter drops "of,", the canonical form of what is
    left is "V/D ofpump", and from there on the loop does not stop:
    [clean_manual_name] has no result at all. *)
Theorem vendor_prefix_input_diverges :
  startswith (py "V/D of") (_normalize_title_terms (py "V-D OF, pump")) = true
  /\ forall passes, clean_manual_name passes (py "V-D OF, pump") = None.
Proof.
  split; [vm_compute; reflexivity|].
  intros passes. apply clean_manual_name_none; [|discriminate].
  assert (_normalize_title_terms (py "V-D OF, pump") = py "V/D of, pump")
    as -> by (vm_compute; reflexivity).
  destruct passes as [|p]; [reflexivity|].
  cbn [clean_loop].
  assert (clean_pass (py "V/D of, pump") = grown 0)
    as -> by (vm_compute; reflexivity).
  change (str_eqb (grown 0) (py "V/D of, pump")) with false. cbv iota.
  apply clean_loop_grown.
Qed.

(** The example of C3 is as the specification has it. *)
Lemma vendor_prefix_example :
  clean_manual_name 10 (py "V-D OF MAIN ENGINE COOLER")
  = Some (py "V/D of MAIN Engine Cooler").
Proof. vm_compute; reflexivity. Qed.

(** C9 at a file named "V-D pump.pdf" with no text: no strategy applies,
    the fallback cleans "V D pump", and that call does not come back:
    [identify_manual_name] returns nothing, however many passes the loop
    is given. *)
Theorem identify_manual_name_diverges (passes : nat) :
  identify_manual_name passes (Some []) (Some (py "V-D pump.pdf")) (Some [])
    None = None.
Proof.
  unfold identify_manual_name.
  assert (text_strategies passes (Some []) (Some (py "V-D pump.pdf"))
          = Some None) as -> by (vm_compute; reflexivity).
  cbn [or_else metadata_title]. unfold fallback.
  assert (strip_chars (py " -")
            (folder_basename (Some []) ++ py " - "
             ++ fn_clean_of (filename_stem (Some (py "V-D pump.pdf"))))
          = py "V D pump") as -> by (vm_compute; reflexivity).
  rewrite clean_manual_name_none; [reflexivity| |discriminate].
  assert (_normalize_title_terms (py "V D pump") = grown 0)
    as -> by (vm_compute; reflexivity).
  apply clean_loop_grown.
Qed.

(** * Further properties of the code *)

Section Coverage.
Context {R : Runtime}.

(** ** The scan loop *)

Lemma post_process_cases (content status : str) (c : counts) :
  (fst (post_process content status c)
     = py "Skipped: Scanned/No Text (OCR missing)"
   /\ status = py "Success" /\ strip content = []
   /\ snd (post_process content status c)
      = Counts (processed c) (success c) (unsupported c) (S (ocr_missing c))
          (error c))
  \/ (fst (post_process content status c) = status
      /\ contains (py "Skipped") status = true
      /\ snd (post_process content status c)
         = Counts (processed c) (success c) (S (unsupported c))
             (ocr_missing c) (error c))
  \/ (fst (post_process content status c) = status
      /\ contains (py "Skipped") status = false
      /\ contains (py "Error") status = true
      /\ snd (post_process content status c)
         = Counts (processed c) (success c) (unsupported c) (ocr_missing c)
             (S (error c)))
  \/ (fst (post_process content status c) = status
      /\ contains (py "Skipped") status = false
      /\ contains (py "Error") status = false
      /\ (status = py "Success" -> strip content <> [])
      /\ snd (post_process content status c)
         = Counts (processed c) (S (success c)) (unsupported c)
             (ocr_missing c) (error c)).
Proof.
  unfold post_process.
  destruct (str_eqb status (py "Success")
            && negb (nonempty (strip content))) eqn:E.
  - left. apply andb_true_iff in E as [E1 E2]. apply str_eqb_eq in E1.
    apply negb_true_iff in E2. destruct (strip content); [|discriminate].
    auto.
  - destruct (contains (py "Skipped") status) eqn:E1; [right; left; auto|].
    destruct (contains (py "Error") status) eqn:E2;
      [right; right; left; auto|].
    right; right; right. split; [reflexivity|]. do 2 (split; [reflexivity|]).
    split; [|reflexivity].
    intros Hs Hc. rewrite Hs, Hc in E. discriminate.
Qed.

Lemma scan_file_some (passes : nat) (st st' : scan_state) (x : extracted) :
  scan_file passes st x = Some st' ->
  exists name,
    identify_manual_name passes (Some (x_content x)) (Some (x_name x))
      (Some (x_parent x)) (Some (x_metadata x)) = Some name
    /\ st'
       = ScanState
           (snd (post_process (x_content x) (x_status x)
                   (Counts (S (processed (s_counts st)))
                      (success (s_counts st)) (unsupported (s_counts st))
                      (ocr_missing (s_counts st)) (error (s_counts st)))))
           (<[classify_doc_type (Some (x_content x)) (Some (x_name x))
                (x_parent x) :=
                (default 0
                   (s_type_counts st
                      !! classify_doc_type (Some (x_content x))
                           (Some (x_name x)) (x_parent x)) + 1)%nat]>
              (s_type_counts st))
           (s_results st
            ++ [Row (x_name x) (x_relpath x)
                  (classify_doc_type (Some (x_content x)) (Some (x_name x))
                     (x_parent x))
                  name
                  (fst (confidence_logic (x_content x) (x_metadata x) name
                          (x_name x) (x_parent x)))
                  (join (py ", ")
                     (snd (confidence_logic (x_content x) (x_metadata x) name
                             (x_name x) (x_parent x))))
                  (fst (post_process (x_content x) (x_status x)
                          (Counts (S (processed (s_counts st)))
                             (success (s_counts st))
                             (unsupported (s_counts st))
                             (ocr_missing (s_counts st))
                             (error (s_counts st)))))]).
Proof.
  unfold scan_file. cbv zeta.
  destruct (post_process _ _ _) as [status c].
  destruct (identify_manual_name passes _ _ _ _) as [name|]; [|discriminate].
  destruct (confidence_logic _ _ _ _ _) as [confidence clues] eqn:Ec.
  intros [= <-]. exists name. rewrite Ec. split; reflexivity.
Qed.

(** An invariant of the body is an invariant of the loop. *)
Lemma scan_invariant (P : scan_state -> Prop) (passes : nat) :
  (forall st x st', P st -> scan_file passes st x = Some st' -> P st') ->
  forall files st st',
    P st -> scan passes st files = Some st' -> P st'.
Proof.
  intros Hstep. induction files as [|x files IH]; intros st st' HP; cbn.
  - intros [= <-]. exact HP.
  - destruct (scan_file passes st x) as [st1|] eqn:E; [|discriminate].
    apply IH. eapply Hstep; eauto.
Qed.

Lemma scan_length (passes : nat) :
  forall files st st',
    scan passes st files = Some st' ->
    length (s_results st') = (length (s_results st) + length files)%nat.
Proof.
  induction files as [|x files IH]; intros st st'; cbn.
  - intros [= <-]. lia.
  - destruct (scan_file passes st x) as [st1|] eqn:E; [|discriminate].
    intros H. rewrite (IH _ _ H).
    apply scan_file_some in E as (name & _ & ->). cbn.
    rewrite length_app. cbn. lia.
Qed.

(** X1. Every file the loop gets through is counted once as processed, has
    one row, and is counted in exactly one of the four other counters. *)
Theorem scan_counts_partition (passes : nat) (files : list extracted)
    (st : scan_state) :
  scan passes scan_start files = Some st ->
  processed (s_counts st) = length files
  /\ length (s_results st) = length files
  /\ processed (s_counts st)
     = (success (s_counts st) + unsupported (s_counts st)
        + ocr_missing (s_counts st) + error (s_counts st))%nat.
Proof.
  intros H. pose proof (scan_length _ _ _ _ H) as Hlen. cbn in Hlen.
  assert (processed (s_counts st) = length (s_results st)
          /\ processed (s_counts st)
             = (success (s_counts st) + unsupported (s_counts st)
                + ocr_missing (s_counts st) + error (s_counts st))%nat)
    as [H1 H2]; [|repeat split; lia].
  revert H.
  apply (scan_invariant
           (fun s => processed (s_counts s) = length (s_results s)
                     /\ processed (s_counts s)
                        = (success (s_counts s) + unsupported (s_counts s)
                           + ocr_missing (s_counts s)
                           + error (s_counts s))%nat));
    [|cbn; lia].
  clear. intros st x st' [H1 H2] E.
  apply scan_file_some in E as (name & _ & ->). cbn [s_counts s_results].
  rewrite length_app. cbn [length].
  destruct (post_process_cases (x_content x) (x_status x)
              (Counts (S (processed (s_counts st))) (success (s_counts st))
                 (unsupported (s_counts st)) (ocr_missing (s_counts st))
                 (error (s_counts st))))
    as [(_ & _ & _ & ->)|[(_ & _ & ->)|[(_ & _ & _ & ->)|(_ & _ & _ & _ & ->)]]];
    cbn; lia.
Qed.

Lemma filter_snoc {A : Type} (f : A -> bool) (l : list A) (x : A) :
  length (List.filter f (l ++ [x]))
  = (length (List.filter f l) + if f x then 1 else 0)%nat.
Proof.
  rewrite List.filter_app, length_app. cbn. destruct (f x); reflexivity.
Qed.

(** X2. The counts of the summary sheet agree with the live counters: the
    rows noted with neither "Skipped" nor "Error" are the successes, the
    rows noted with "Skipped" are the unsupported and the text-less ones,
    and the rows noted with "Error" are the errors and those, counted as
    unsupported, whose note has both words. *)
Theorem scan_summary_agrees (passes : nat) (files : list extracted)
    (st : scan_state) :
  scan passes scan_start files = Some st ->
  summary_success (s_results st) = success (s_counts st)
  /\ summary_skipped (s_results st)
     = (unsupported (s_counts st) + ocr_missing (s_counts st))%nat
  /\ summary_errors (s_results st)
     = (error (s_counts st)
        + length (List.filter
                    (fun r => noted (py "Skipped") r && noted (py "Error") r)
                    (s_results st)))%nat.
Proof.
  apply (scan_invariant
           (fun s =>
              summary_success (s_results s) = success (s_counts s)
              /\ summary_skipped (s_results s)
                 = (unsupported (s_counts s) + ocr_missing (s_counts s))%nat
              /\ summary_errors (s_results s)
                 = (error (s_counts s)
                    + length (List.filter
                                (fun r => noted (py "Skipped") r
                                          && noted (py "Error") r)
                                (s_results s)))%nat));
    [|cbn; lia].
  clear. intros st x st' (H1 & H2 & H3) E.
  apply scan_file_some in E as (name & _ & ->).
  cbn [s_counts s_results].
  unfold summary_success, summary_skipped, summary_errors in *.
  cbn [existsb] in H1 |- *.
  rewrite !filter_snoc, H1, H2, H3. unfold noted. cbn [r_notes].
  destruct (post_process_cases (x_content x) (x_status x)
              (Counts (S (processed (s_counts st))) (success (s_counts st))
                 (unsupported (s_counts st)) (ocr_missing (s_counts st))
                 (error (s_counts st))))
    as [(-> & _ & _ & ->)|[(-> & Hs & ->)
       |[(-> & Hs & He & ->)|(-> & Hs & He & _ & ->)]]].
  - change (contains (py "Skipped")
              (py "Skipped: Scanned/No Text (OCR missing)")) with true.
    change (contains (py "Error")
              (py "Skipped: Scanned/No Text (OCR missing)")) with false.
    cbn. lia.
  - rewrite Hs. cbn. destruct (contains (py "Error") (x_status x)); cbn; lia.
  - rewrite Hs, He. cbn. lia.
  - rewrite Hs, He. cbn. lia.
Qed.

(** X3. The count kept for a file type is the number of rows of that type. *)
Theorem scan_type_counts (passes : nat) (files : list extracted)
    (st : scan_state) (t : str) :
  scan passes scan_start files = Some st ->
  default 0%nat (s_type_counts st !! t)
  = length (List.filter (fun r => str_eqb (r_file_type r) t) (s_results st)).
Proof.
  apply (scan_invariant
           (fun s =>
              default 0%nat (s_type_counts s !! t)
              = length (List.filter (fun r => str_eqb (r_file_type r) t)
                          (s_results s))));
    [|reflexivity].
  clear. intros st x st' H E.
  apply scan_file_some in E as (name & _ & ->).
  cbn [s_type_counts s_results]. rewrite filter_snoc. cbn [r_file_type].
  set (d := classify_doc_type _ _ _).
  destruct (str_eqb d t) eqn:Ed.
  - apply str_eqb_eq in Ed. subst t. rewrite lookup_insert_eq. cbn. lia.
  - rewrite lookup_insert_ne.
    + lia.
    + intros ->. rewrite str_eqb_refl in Ed. discriminate.
Qed.

Lemma confidence_levels (content : str) (md : gmap str str)
    (name file parent : str) :
  In (fst (confidence_logic content md name file parent))
     (map py ["Low"; "Med"; "High"]%string)
  /\ (strip content <> [] ->
      fst (confidence_logic content md name file parent) <> py "Low").
Proof.
  unfold confidence_logic.
  destruct (strip content) as [|c0 s0];
  destruct (md !! py "/Title") as [[|v0 v]|]; cbn [nonempty];
  try destruct (nonempty (upper (strip (v0 :: v)))
                && contains (upper (strip (v0 :: v))) (upper name));
  destruct (contains (py "manual") (lower file)
            || contains (py "manual") (lower parent));
  cbn -[py]; vm_compute py; split; try tauto; intros; discriminate.
Qed.

(** X4. A row noted "Success" has text behind it, hence a confidence of
    "Med" or "High", never "Low". *)
Theorem scan_success_not_low (passes : nat) (files : list extracted)
    (st : scan_state) :
  scan passes scan_start files = Some st ->
  Forall (fun r => r_notes r = py "Success" -> r_confidence r <> py "Low")
    (s_results st).
Proof.
  apply (scan_invariant
           (fun s =>
              Forall (fun r => r_notes r = py "Success" ->
                               r_confidence r <> py "Low") (s_results s)));
    [|constructor].
  clear. intros st x st' H E.
  apply scan_file_some in E as (name & _ & ->). cbn [s_results].
  apply Forall_app. split; [exact H|]. constructor; [|constructor].
  cbn [r_notes r_confidence].
  destruct (post_process_cases (x_content x) (x_status x)
              (Counts (S (processed (s_counts st))) (success (s_counts st))
                 (unsupported (s_counts st)) (ocr_missing (s_counts st))
                 (error (s_counts st))))
    as [(-> & _)|[(-> & Hs & _)|[(-> & _ & He & _)|(-> & _ & _ & Hc & _)]]].
  - intros Hn. vm_compute in Hn. discriminate.
  - intros Hn. rewrite Hn in Hs. vm_compute in Hs. discriminate.
  - intros Hn. rewrite Hn in He. vm_compute in He. discriminate.
  - intros Hn. apply confidence_levels. auto.
Qed.

(** Every row has one of the five file types and one of the three
    levels of confidence. *)
Theorem scan_vocabulary (passes : nat) (files : list extracted)
    (st : scan_state) :
  scan passes scan_start files = Some st ->
  Forall (fun r =>
            In (r_file_type r)
               (map py ["Machinery/System Manual"; "Capacity Plan / Datasheet";
                        "Certificate / Report"; "Drawing"; "Unknown"]%string)
            /\ In (r_confidence r) (map py ["Low"; "Med"; "High"]%string))
    (s_results st).
Proof.
  apply (scan_invariant
           (fun s =>
              Forall (fun r =>
                In (r_file_type r)
                   (map py ["Machinery/System Manual";
                            "Capacity Plan / Datasheet";
                            "Certificate / Report"; "Drawing";
                            "Unknown"]%string)
                /\ In (r_confidence r) (map py ["Low"; "Med"; "High"]%string))
                (s_results s)));
    [|constructor].
  clear. intros st x st' H E.
  apply scan_file_some in E as (name & _ & ->). cbn [s_results].
  apply Forall_app. split; [exact H|]. constructor; [|constructor].
  cbn [r_file_type r_confidence]. split.
  - apply classify_doc_type_label.
  - apply confidence_levels.
Qed.

(** ** [extract_with_regex] *)

Lemma lstrip_rstrip_lstrip (p : N -> bool) (s : str) :
  lstrip_by p (rstrip_by p (lstrip_by p s)) = rstrip_by p (lstrip_by p s).
Proof.
  destruct (lstrip_by p s) as [|c r] eqn:E; [reflexivity|].
  pose proof (lstrip_by_head p s c r E) as Hc.
  rewrite rstrip_by_cons.
  destruct (rstrip_by p r); rewrite ?Hc; cbn; rewrite Hc; reflexivity.
Qed.

Lemma strip_strip (s : str) : strip (strip s) = strip s.
Proof.
  unfold strip, strip_by. rewrite lstrip_rstrip_lstrip.
  apply rstrip_ends, ends_ws_rstrip.
Qed.

Lemma extract_fold_keys (text : str) (patterns : list (str * re)) :
  forall (m : gmap str str) (key : str),
    is_Some
      (fold_left
         (fun results '(key, pattern) =>
            let m := re_search true pattern text in
            <[key := match m with
                     | Some (_, m) => strip (group text m 1)
                     | None => py "Unknown"
                     end]> results)
         patterns m !! key)
    <-> In key (map fst patterns) \/ is_Some (m !! key).
Proof.
  induction patterns as [|[k p] patterns IH]; intros m key; cbn [fold_left map].
  - cbn. tauto.
  - rewrite IH. cbn [fst In].
    destruct (decide (k = key)) as [->|Hne].
    + rewrite lookup_insert_eq. split; [auto|]. intros _. right. eauto.
    + rewrite lookup_insert_ne by exact Hne. tauto.
Qed.


Lemma extract_fold_trimmed (text : str) (patterns : list (str * re)) :
  forall (m : gmap str str),
    (forall key v, m !! key = Some v -> strip v = v) ->
    forall key v,
      fold_left
        (fun results '(key, pattern) =>
           let m := re_search true pattern text in
           <[key := match m with
                    | Some (_, m) => strip (group text m 1)
                    | None => py "Unknown"
                    end]> results)
        patterns m !! key = Some v ->
      strip v = v.
Proof.
  induction patterns as [|[k p] patterns IH]; intros m Hm key v;
    cbn [fold_left]; [apply Hm|].
  apply IH. intros key' v'.
  destruct (decide (k = key')) as [->|Hne].
  - rewrite lookup_insert_eq. intros [= <-].
    destruct (re_search true p text) as [[i st]|];
      [apply strip_strip | reflexivity].
  - rewrite lookup_insert_ne by exact Hne. apply Hm.
Qed.

(** The result has a value for the keys of the patterns and for no other
    key. *)
Theorem extract_with_regex_keys (text : option str)
    (patterns : list (str * re)) (key : str) :
  is_Some (extract_with_regex text patterns !! key)
  <-> In key (map fst patterns).
Proof.
  unfold extract_with_regex. rewrite extract_fold_keys.
  rewrite lookup_empty. split; [intros [H|[v H]]; [auto|discriminate] | auto].
Qed.


(** X6. No value starts or ends with white space. *)
Theorem extract_with_regex_trimmed (text : option str)
    (patterns : list (str * re)) (key v : str) :
  extract_with_regex text patterns !! key = Some v -> strip v = v.
Proof.
  apply extract_fold_trimmed. intros k w. rewrite lookup_empty. discriminate.
Qed.

(** ** [classify_doc_type] *)

Lemma startswith_app_l (k a b : str) :
  startswith k a = true -> startswith k (a ++ b) = true.
Proof.
  revert a. induction k as [|x k IH]; intros a; [reflexivity|].
  destruct a as [|y a]; [discriminate|]. cbn.
  rewrite !andb_true_iff. intros [-> H]. auto.
Qed.

Lemma contains_app_l (k a b : str) :
  contains k a = true -> contains k (a ++ b) = true.
Proof.
  unfold contains. induction a as [|x a IH].
  - cbn. destruct (startswith k []) eqn:E; [|discriminate].
    intros _. destruct k; [|discriminate].
    destruct b; reflexivity.
  - cbn [find app].
    destruct (startswith k (x :: a)) eqn:E.
    + pose proof (startswith_app_l _ _ b E) as E'. cbn [app] in E'.
      rewrite E'. reflexivity.
    + destruct (startswith k (x :: a ++ b)); [reflexivity|].
      destruct (find k a); [|discriminate].
      intros _. specialize (IH eq_refl).
      destruct (find k (a ++ b)); [reflexivity | discriminate].
Qed.

Lemma lower_app (a b : str) : lower (a ++ b) = lower a ++ lower b.
Proof. apply flat_map_app. Qed.

Lemma any_in_app_l (l : list str) (a b : str) :
  any_in l a = true -> any_in l (a ++ b) = true.
Proof.
  unfold any_in. rewrite !existsb_exists. intros (k & Hk & Hc).
  exists k. split; auto using contains_app_l.
Qed.

Lemma any_in_app_r (l : list str) (a b : str) :
  any_in l b = true -> any_in l (a ++ b) = true.
Proof.
  unfold any_in. rewrite !existsb_exists. intros (k & Hk & Hc).
  exists k. split; auto using contains_app_r.
Qed.

(** X7. A word of the first bucket ("manual", "instruction", "handbook",
    ...) in the text, in the file name or in the name of the folder alone
    makes the document a "Machinery/System Manual", whatever else the
    three say. *)
Theorem classify_manual_wins (text filename : option str)
    (folder_path : str) :
  any_in manual_words (lower (normalize_text (default [] text))) = true
  \/ any_in manual_words (lower (normalize_text (default [] filename))) = true
  \/ any_in manual_words (lower (normalize_text (path_name folder_path)))
     = true ->
  classify_doc_type text filename folder_path = py "Machinery/System Manual".
Proof.
  intros H. unfold classify_doc_type.
  assert (any_in manual_words (combined_text text filename folder_path)
          = true) as ->; [|reflexivity].
  unfold combined_text. rewrite !lower_app.
  destruct H as [H|[H|H]].
  - apply any_in_app_l, H.
  - apply any_in_app_r, any_in_app_r, any_in_app_l, H.
  - do 4 apply any_in_app_r. exact H.
Qed.

Lemma manual_absent (s : str) :
  any_in manual_words s = false -> contains (py "manual") s = false.
Proof.
  unfold any_in, manual_words. cbn [map existsb].
  intros H. apply orb_false_iff in H as [H _]. exact H.
Qed.

(** X8. The answer is "Drawing" exactly when the combined text has no word
    of the first three buckets and has a word of one of the last three;
    the tests for "manual" in the fourth and the fifth bucket never
    decide. *)
Theorem classify_drawing_iff (text filename : option str)
    (folder_path : str) :
  classify_doc_type text filename folder_path = py "Drawing"
  <-> any_in (manual_words ++ capacity_words ++ certificate_words)
        (combined_text text filename folder_path) = false
      /\ any_in (drawing_words ++ equipment_words ++ structure_words)
           (combined_text text filename folder_path) = true.
Proof.
  unfold classify_doc_type, any_in. cbv zeta.
  rewrite !existsb_app, !orb_false_iff, !orb_true_iff.
  fold (any_in manual_words (combined_text text filename folder_path)).
  destruct (any_in manual_words (combined_text text filename folder_path))
    eqn:Em.
  { split; [intros H; vm_compute in H; discriminate|].
    intros [[H _] _]. discriminate. }
  rewrite (manual_absent _ Em). cbn [negb]. rewrite !andb_true_r.
  destruct (existsb _ capacity_words).
  { split; [intros H; vm_compute in H; discriminate|].
    intros [(_ & H & _) _]. discriminate. }
  destruct (existsb _ certificate_words).
  { split; [intros H; vm_compute in H; discriminate|].
    intros [(_ & _ & H) _]. discriminate. }
  destruct (existsb _ drawing_words); [tauto|].
  destruct (existsb _ equipment_words); [tauto|].
  destruct (existsb _ structure_words); [tauto|].
  split; [intros H; vm_compute in H; discriminate|].
  intros [_ [H|[H|H]]]; discriminate.
Qed.

(** ** [identify_manual_name] *)

(** X9. When the file name is not the one of a numbered drawing but has
    "V-D OF" in one of its spellings, the cleaned canonical form of the
    file name is returned if it is not empty, whatever the text and the
    metadata are. *)
Theorem vendor_rule_second (passes : nat) (text filename : option str)
    (folder_path : option str) (metadata : option (gmap str str))
    (cleaned : str) :
  is_drawing_prefix (filename_stem filename) = false ->
  re_found true vd_of (fn_clean_of (filename_stem filename)) = true ->
  clean_manual_name passes
    (_normalize_title_terms (fn_clean_of (filename_stem filename)))
  = Some cleaned ->
  cleaned <> [] ->
  identify_manual_name passes text filename folder_path metadata
  = Some cleaned.
Proof.
  intros Hd Hv Hc Hne.
  unfold identify_manual_name, text_strategies. cbv zeta.
  unfold drawing_rule. rewrite Hd. cbn [or_else].
  unfold vendor_rule. rewrite Hv.
  unfold return_if_clean. rewrite Hc.
  destruct cleaned; [congruence|]. reflexivity.
Qed.

Lemma or_else_some (a : option (option str))
    (b : unit -> option (option str)) (r : str) :
  or_else a b = Some (Some r) ->
  a = Some (Some r) \/ (a = Some None /\ b tt = Some (Some r)).
Proof.
  unfold or_else. destruct a as [[x|]|]; auto; discriminate.
Qed.

Lemma return_if_clean_some (passes : nat) (gate : bool) (cand r : str) :
  return_if_clean passes gate cand = Some (Some r) ->
  clean_manual_name passes cand = Some r
  /\ r <> []
  /\ (gate = true -> _is_meaningful_title r = true).
Proof.
  unfold return_if_clean.
  destruct (clean_manual_name passes cand) as [c|]; [|discriminate].
  destruct (nonempty c && (negb gate || _is_meaningful_title c)) eqn:E;
    [|discriminate].
  intros [= <-]. apply andb_true_iff in E as [E1 E2].
  repeat split.
  - intros ->. discriminate.
  - intros ->. exact E2.
Qed.

Lemma title_block_scan_some (passes : nat) (r : str) :
  forall n ls,
    title_block_scan passes n ls = Some (Some r) ->
    _is_meaningful_title r = true.
Proof.
  induction n as [|n IH]; intros ls; [discriminate|].
  destruct ls as [|line rest]; [discriminate|]. cbn [title_block_scan].
  destruct (re_search true title_word line) as [[start m]|]; [|apply IH].
  intros H. apply or_else_some in H as [H|[_ H]]; [|eapply IH, H].
  apply return_if_clean_some in H. apply H. reflexivity.
Qed.

Lemma merged_line_scan_some (passes : nat) (r : str) :
  forall ls,
    merged_line_scan passes ls = Some (Some r) ->
    _is_meaningful_title r = true.
Proof.
  induction ls as [|line rest IH]; [discriminate|]. cbn [merged_line_scan].
  destruct (contains (py "TITLE") (upper line)
            && any_in merged_markers (upper line)); [|exact IH].
  intros H. apply or_else_some in H as [H|[_ H]]; [|exact (IH H)].
  apply return_if_clean_some in H. apply H. reflexivity.
Qed.

Lemma keyword_try_some (passes : nat) (line : str) (rest : list str)
    (r : str) :
  forall kws,
    keyword_try passes kws line rest = Some (Some r) ->
    _is_meaningful_title r = true.
Proof.
  induction kws as [|kw kws IH]; [discriminate|]. cbn [keyword_try].
  destruct (contains kw (upper line) && Nat.ltb (length line) 260);
    [|exact IH].
  intros H. apply or_else_some in H as [H|[_ H]]; [|exact (IH H)].
  apply return_if_clean_some in H. apply H. reflexivity.
Qed.

Lemma keyword_scan_some (passes : nat) (r : str) :
  forall n ls,
    keyword_scan passes n ls = Some (Some r) ->
    _is_meaningful_title r = true.
Proof.
  induction n as [|n IH]; intros ls; [discriminate|].
  destruct ls as [|line rest]; [discriminate|]. cbn [keyword_scan].
  destruct (_looks_like_stamp_or_revision (upper line)); [apply IH|].
  destruct (ratio_lt (_alpha_ratio line) 18 100
            && negb (re_found false three_letters line)); [apply IH|].
  intros H. apply or_else_some in H as [H|[_ H]]; [|eapply IH, H].
  eapply keyword_try_some, H.
Qed.

Lemma label_scan_some (passes : nat) (text r : str) :
  forall pats,
    label_scan passes pats text = Some (Some r) ->
    _is_meaningful_title r = true.
Proof.
  induction pats as [|[label pat] pats IH]; [discriminate|].
  cbn [label_scan].
  destruct (re_search true pat text) as [[i m]|]; [|exact IH].
  intros H. apply or_else_some in H as [H|[_ H]]; [|exact (IH H)].
  apply return_if_clean_some in H. apply H. reflexivity.
Qed.

Lemma metadata_title_some (passes : nat) (metadata : option (gmap str str))
    (r : str) :
  metadata_title passes metadata = Some (Some r) ->
  _is_meaningful_title r = true.
Proof.
  unfold metadata_title. destruct metadata as [md|]; [|discriminate].
  destruct (md !! py "/Title") as [[|c v]|]; try discriminate.
  destruct (Nat.ltb 5 (length (strip (c :: v))) && _); [|discriminate].
  intros H. apply return_if_clean_some in H. apply H. reflexivity.
Qed.

(** X10. Where a returned name comes from: it is the cleaned form of what
    is left of the file name, or of the canonical form of that, or of the
    folder and the file name put together, or else it is a meaningful
    title. *)
Theorem identify_manual_name_origin (passes : nat)
    (text filename : option str) (folder_path : option str)
    (metadata : option (gmap str str)) (r : str) :
  identify_manual_name passes text filename folder_path metadata = Some r ->
  clean_manual_name passes (fn_clean_of (filename_stem filename)) = Some r
  \/ clean_manual_name passes
       (_normalize_title_terms (fn_clean_of (filename_stem filename)))
     = Some r
  \/ clean_manual_name passes
       (strip_chars (py " -")
          (folder_basename folder_path ++ py " - "
           ++ fn_clean_of (filename_stem filename)))
     = Some r
  \/ _is_meaningful_title r = true.
Proof.
  unfold identify_manual_name.
  destruct (or_else (text_strategies passes text filename) _)
    as [[name|]|] eqn:E; [| |discriminate].
  - intros [= <-]. apply or_else_some in E as [E|[_ E]].
    + unfold text_strategies in E. cbv zeta in E.
      apply or_else_some in E as [E|[_ E]].
      { unfold drawing_rule in E.
        destruct (is_drawing_prefix _); [|discriminate].
        destruct (Nat.leb 2 _); [|discriminate].
        apply return_if_clean_some in E. left. apply E. }
      apply or_else_some in E as [E|[_ E]].
      { unfold vendor_rule in E.
        destruct (re_found true vd_of _); [|discriminate].
        apply return_if_clean_some in E. right; left. apply E. }
      do 3 right.
      apply or_else_some in E as [E|[_ E]];
        [eapply title_block_scan_some, E|].
      apply or_else_some in E as [E|[_ E]];
        [eapply merged_line_scan_some, E|].
      apply or_else_some in E as [E|[_ E]];
        [eapply keyword_scan_some, E|].
      eapply label_scan_some, E.
    + do 3 right. eapply metadata_title_some, E.
  - unfold fallback.
    destruct (clean_manual_name passes _) as [c|] eqn:Ec; [|discriminate].
    intros [= <-]. right; right; left.
    destruct c; reflexivity.
Qed.

Lemma keyword_try_any (passes : nat) (line : str) (rest : list str) :
  forall kws,
    keyword_try passes kws line rest
    = if any_in kws (upper line) && Nat.ltb (length line) 260
      then return_if_clean passes true
             (keyword_candidate line (firstn 11 rest))
      else Some None.
Proof.
  induction kws as [|kw kws IH]; [reflexivity|].
  cbn [keyword_try any_in existsb]. rewrite IH. unfold any_in.
  destruct (contains kw (upper line)); cbn [orb andb]; [|reflexivity].
  destruct (Nat.ltb (length line) 260); cbn [andb].
  - destruct (return_if_clean passes true _) as [[x|]|]; cbn [or_else];
      try reflexivity.
    destruct (existsb _ kws); reflexivity.
  - rewrite andb_false_r. reflexivity.
Qed.

(** X11. What the keyword loop over a line returns depends on the set of
    the keywords only: neither their order (that of a Python set is not
    fixed, and the sort by length keeps it among keywords of one length)
    nor repetitions change it. *)
Theorem keyword_try_set (passes : nat) (kws kws' : list str) (line : str)
    (rest : list str) :
  (forall kw, In kw kws <-> In kw kws') ->
  keyword_try passes kws line rest = keyword_try passes kws' line rest.
Proof.
  intros H. rewrite !keyword_try_any.
  assert (any_in kws (upper line) = any_in kws' (upper line)) as ->;
    [|reflexivity].
  unfold any_in. apply eq_true_iff_eq. rewrite !existsb_exists.
  split; intros (k & Hk & Hc); exists k; split; auto; apply H; auto.
Qed.

(** ** The lines of the text *)

Lemma split_on_pieces (sep : N) (s : str) (w : str) :
  In w (split_on sep s) -> ~ In sep w.
Proof.
  revert w. induction s as [|c s IH]; intros w; cbn [split_on].
  - intros [<-|[]]. auto.
  - destruct (N.eqb_spec c sep) as [->|Hne].
    + intros [<-|H]; [auto | apply IH, H].
    + destruct (split_on sep s) as [|w0 ws] eqn:E.
      * intros [<-|[]]. intros [H|[]]. congruence.
      * intros [<-|H].
        -- intros [H|H]; [congruence|]. apply (IH w0); [left|]; auto.
        -- apply IH. right. exact H.
Qed.

Lemma In_lstrip_by (p : N -> bool) (s : str) (c : N) :
  In c (lstrip_by p s) -> In c s.
Proof.
  induction s as [|x s IH]; cbn; auto.
  destruct (p x); cbn; auto.
Qed.

Lemma In_strip (s : str) (c : N) : In c (strip s) -> In c s.
Proof.
  unfold strip, strip_by, rstrip_by. intros H.
  apply in_rev, In_lstrip_by, in_rev in H. apply In_lstrip_by in H. exact H.
Qed.

Lemma In_firstn_l {A : Type} (n : nat) (l : list A) (x : A) :
  In x (firstn n l) -> In x l.
Proof.
  revert l. induction n as [|n IH]; intros [|y l]; cbn; try tauto.
  intros [H|H]; auto.
Qed.

(** X12. The lines that the strategies scan are 900 at most; none is
    empty, none starts or ends with white space, and none holds a line
    feed. *)
Theorem text_lines_shape (text : str) :
  (length (text_lines text) <= 900)%nat
  /\ Forall (fun ln => ln <> [] /\ strip ln = ln /\ ~ In 10 ln)
       (text_lines text).
Proof.
  unfold text_lines. split; [apply List.firstn_le_length|].
  apply List.Forall_forall. intros ln Hln.
  apply In_firstn_l in Hln.
  apply in_map_iff in Hln as (raw & <- & Hraw).
  apply filter_In in Hraw as [Hraw Hne].
  repeat split.
  - intros E. rewrite E in Hne. discriminate.
  - apply strip_strip.
  - intros H. apply In_strip in H. eapply split_on_pieces; eauto.
Qed.

(** ** The shape of normalized text *)

Lemma nodouble_spaces (s : str) :
  forall b, nodouble b s = true ->
            Forall (fun c => isspace c = true -> c = 32) s.
Proof.
  induction s as [|c s IH]; intros b H; constructor.
  - cbn in H. destruct (isspace c); [|discriminate].
    intros _. apply andb_true_iff in H as [H _].
    apply andb_true_iff in H as [_ H]. apply N.eqb_eq, H.
  - cbn in H. destruct (isspace c).
    + apply andb_true_iff in H as [_ H]. eapply IH, H.
    + eapply IH, H.
Qed.

Lemma nodouble_no_pair (a b : str) :
  forall f, nodouble f (a ++ 32 :: 32 :: b) = false.
Proof.
  induction a as [|c a IH]; intros f; cbn.
  - rewrite ?isspace_32. cbn. destruct f; reflexivity.
  - destruct (isspace c); rewrite IH; [apply andb_false_r | reflexivity].
Qed.

(** X13. The result of [normalize_text] is made of ASCII characters other
    than NUL; its only white space is the space character, never two in a
    row, and neither at the start nor at the end. *)
Theorem normalize_text_shape (s : str) :
  Forall (fun c => c < 128 /\ c <> 0 /\ (isspace c = true -> c = 32))
    (normalize_text s)
  /\ (forall a b, normalize_text s <> a ++ 32 :: 32 :: b)
  /\ (forall b, normalize_text s <> 32 :: b)
  /\ (forall a, normalize_text s <> a ++ [32]).
Proof.
  pose proof (normal_normalize_text s) as H. unfold normal, tidy in H.
  apply andb_true_iff in H as [H Ht].
  apply andb_true_iff in H as [Ha Hz].
  apply andb_true_iff in Ht as [Hn He].
  repeat split.
  - pose proof (nodouble_spaces _ _ Hn) as Hs.
    rewrite forallb_forall in Ha, Hz. rewrite List.Forall_forall in Hs.
    apply List.Forall_forall. intros c Hc. repeat split.
    + apply N.ltb_lt, Ha, Hc.
    + specialize (Hz c Hc). apply negb_true_iff, N.eqb_neq in Hz. exact Hz.
    + apply Hs, Hc.
  - intros a b E. rewrite E, nodouble_no_pair in Hn. discriminate.
  - intros b E. rewrite E in Hn. cbn in Hn. rewrite ?isspace_32 in Hn.
    discriminate.
  - intros a E. rewrite E, ends_ws_app1 in He. rewrite ?isspace_32 in He.
    discriminate.
Qed.

(** ** The token filter *)

Lemma wordy_rev (w : str) : wordy (rev w) = wordy w.
Proof.
  unfold wordy. rewrite forallb_rev. f_equal.
  destruct w as [|c w]; [reflexivity|]. cbn.
  destruct (rev w); reflexivity.
Qed.

Lemma split_ws_aux_wordy (s : str) :
  forall cur,
    forallb (fun c => negb (isspace c)) cur = true ->
    Forall (fun w => wordy w = true) (split_ws_aux cur s).
Proof.
  induction s as [|c s IH]; intros cur Hcur; cbn [split_ws_aux].
  - destruct cur as [|x cur]; constructor; [|constructor].
    rewrite wordy_rev. unfold wordy. rewrite Hcur. reflexivity.
  - destruct (isspace c) eqn:E.
    + destruct cur as [|x cur]; [apply IH; reflexivity|].
      constructor; [|apply IH; reflexivity].
      rewrite wordy_rev. unfold wordy. rewrite Hcur. reflexivity.
    + apply IH. cbn. rewrite E, Hcur. reflexivity.
Qed.

Lemma split_wordy (s : str) : Forall (fun w => wordy w = true) (split s).
Proof. apply split_ws_aux_wordy. reflexivity. Qed.

Lemma wordy_parts (w : str) :
  wordy w = true ->
  w <> [] /\ forallb (fun c => negb (isspace c)) w = true.
Proof.
  unfold wordy. rewrite andb_true_iff. intros [H1 H2]. split; auto.
  intros ->. discriminate.
Qed.

Lemma split_word (w : str) : wordy w = true -> split w = [w].
Proof.
  intros [Hne Hw]%wordy_parts. unfold split.
  rewrite <- (app_nil_r w) at 1.
  rewrite split_ws_aux_word by auto. rewrite app_nil_r. cbn.
  destruct (rev w) eqn:E; [|rewrite <- E, rev_involutive; reflexivity].
  apply (f_equal (@rev N)) in E. rewrite rev_involutive in E. cbn in E.
  congruence.
Qed.

Lemma split_word_space (w s : str) :
  wordy w = true -> split (w ++ 32 :: s) = w :: split s.
Proof.
  intros [Hne Hw]%wordy_parts. unfold split.
  rewrite split_ws_aux_word by auto. rewrite app_nil_r.
  cbn [split_ws_aux]. rewrite isspace_32.
  destruct (rev w) eqn:E; [|rewrite <- E, rev_involutive; reflexivity].
  apply (f_equal (@rev N)) in E. rewrite rev_involutive in E. cbn in E.
  congruence.
Qed.

(** Words joined by single spaces split into the same words. *)
Lemma split_join (ws : list str) :
  Forall (fun w => wordy w = true) ws -> split (join (py " ") ws) = ws.
Proof.
  induction 1 as [|w ws Hw Hws IH]; [reflexivity|].
  destruct ws as [|w' ws]; [apply split_word, Hw|].
  change (join (py " ") (w :: w' :: ws))
    with (w ++ 32 :: join (py " ") (w' :: ws)).
  rewrite split_word_space by exact Hw. rewrite IH. reflexivity.
Qed.

Lemma nodouble_app_word (w s : str) (b : bool) :
  wordy w = true -> nodouble b (w ++ s) = nodouble false s.
Proof.
  intros [Hne Hw]%wordy_parts. revert b.
  induction w as [|c w IH]; intros b; [congruence|].
  cbn in Hw. apply andb_true_iff in Hw as [Hc Hw].
  apply negb_true_iff in Hc. cbn. rewrite Hc.
  destruct w as [|c' w]; [reflexivity|]. apply IH; [discriminate | exact Hw].
Qed.

Lemma ends_ws_app (a b : str) : b <> [] -> ends_ws (a ++ b) = ends_ws b.
Proof.
  intros Hb. unfold ends_ws. rewrite rev_app_distr.
  destruct (rev b) eqn:E; [|reflexivity].
  apply (f_equal (@rev N)) in E. rewrite rev_involutive in E. cbn in E.
  congruence.
Qed.

Lemma ends_ws_word (w : str) : wordy w = true -> ends_ws w = false.
Proof.
  intros [Hne Hw]%wordy_parts. unfold ends_ws.
  rewrite <- forallb_rev in Hw. destruct (rev w) as [|c r]; [reflexivity|].
  cbn in Hw. apply andb_true_iff in Hw as [Hc _].
  apply negb_true_iff, Hc.
Qed.

Lemma tidy_join (ws : list str) :
  Forall (fun w => wordy w = true) ws -> tidy (join (py " ") ws) = true.
Proof.
  induction 1 as [|w ws Hw Hws IH]; [reflexivity|].
  destruct ws as [|w' ws].
  - cbn [join]. unfold tidy.
    rewrite <- (app_nil_r w) at 1. rewrite nodouble_app_word by exact Hw.
    rewrite ends_ws_word by exact Hw. reflexivity.
  - change (join (py " ") (w :: w' :: ws))
      with (w ++ 32 :: join (py " ") (w' :: ws)).
    unfold tidy in *. apply andb_true_iff in IH as [IH1 IH2].
    rewrite nodouble_app_word by exact Hw.
    cbn [nodouble]. rewrite isspace_32. cbn [negb andb]. rewrite N.eqb_refl.
    rewrite IH1. cbn [andb].
    rewrite ends_ws_app by discriminate.
    change (32 :: join (py " ") (w' :: ws))
      with ([32] ++ join (py " ") (w' :: ws)).
    rewrite ends_ws_app; [exact IH2|].
    inversion Hws as [|? ? Hw' _]; subst.
    apply wordy_parts in Hw' as [Hne _].
    destruct w'; [congruence|]. destruct ws; discriminate.
Qed.

Lemma str_in_In (s : str) (l : list str) : str_in s l = true -> In s l.
Proof.
  unfold str_in. rewrite existsb_exists. intros (x & Hx & E).
  apply str_eqb_eq in E. subst. exact Hx.
Qed.

(** A token that is kept is a word, and is kept as it is when it is seen
    again. *)
Lemma keep_token_kept (t r : str) :
  wordy t = true -> keep_token t = Some r ->
  wordy r = true /\ keep_token r = Some r.
Proof.
  intros Hw H. pose proof H as H0.
  apply wordy_parts in Hw as Hw'. destruct Hw' as [_ Hs].
  unfold keep_token in H. cbv zeta in H. rewrite (strip_word _ Hs) in H.
  destruct (str_in (upper t) (map py ["AND"; "OF"; "FOR"; "IN"]%string)).
  { destruct (str_in (upper t) (map py ["OF"; "FOR"; "IN"]%string)) eqn:E.
    - apply str_in_In in E. injection H as <-.
      cbn [map In] in E. decompose [or] E; try tauto;
        match goal with HE : _ = upper t |- _ => rewrite <- HE end;
        split; vm_compute; reflexivity.
    - injection H as <-. split; vm_compute; reflexivity. }
  destruct (str_in (upper t) (map py ["E/R"; "E-R"]%string)).
  { injection H as <-. split; vm_compute; reflexivity. }
  destruct (str_eqb (upper t) (py "V/D")).
  { injection H as <-. split; vm_compute; reflexivity. }
  repeat match type of H with
         | (if ?b then None else _) = _ => destruct b; [discriminate|]
         end.
  injection H as <-. split; [exact Hw | exact H0].
Qed.

Lemma omap_keep_wordy (ws : list str) :
  Forall (fun w => wordy w = true) ws ->
  Forall (fun w => wordy w = true) (omap keep_token ws)
  /\ omap keep_token (omap keep_token ws) = omap keep_token ws.
Proof.
  induction 1 as [|w ws Hw Hws [IH1 IH2]]; [split; [constructor | reflexivity]|].
  cbn [omap list_omap]. destruct (keep_token w) as [r|] eqn:E; [|split; assumption].
  destruct (keep_token_kept _ _ Hw E) as [Hr Hk].
  split; [constructor; assumption|].
  cbn [omap list_omap]. rewrite Hk. f_equal. exact IH2.
Qed.

Lemma drop_tokens_join (s : str) :
  _drop_garbage_tokens s = join (py " ") (omap keep_token (split s)).
Proof.
  destruct s as [|c s]; [reflexivity|]. unfold _drop_garbage_tokens.
  apply squeeze_tidy, tidy_join, omap_keep_wordy, split_wordy.
Qed.

(** X14. The words of the result of [_drop_garbage_tokens] are the tokens
    of the argument that the filter keeps (with the connectives in lower
    case and E-R as E/R), in their order: every one of them is a word, so
    that joining them by single spaces loses nothing. *)
Theorem drop_garbage_tokens_words (s : str) :
  split (_drop_garbage_tokens s) = omap keep_token (split s).
Proof.
  rewrite drop_tokens_join. apply split_join, omap_keep_wordy, split_wordy.
Qed.

(** X15. [_drop_garbage_tokens] is idempotent: a token that passed the
    filter once passes it again unchanged. *)
Theorem drop_garbage_tokens_idempotent (s : str) :
  _drop_garbage_tokens (_drop_garbage_tokens s) = _drop_garbage_tokens s.
Proof.
  rewrite !drop_tokens_join.
  rewrite split_join by apply omap_keep_wordy, split_wordy.
  f_equal. apply omap_keep_wordy, split_wordy.
Qed.

Ltac nsolve :=
  repeat match goal with
         | |- context [N.leb ?a ?b] => destruct (N.leb_spec a b)
         | |- context [N.ltb ?a ?b] => destruct (N.ltb_spec a b)
         | |- context [N.eqb ?a ?b] => destruct (N.eqb_spec a b)
         end; cbn; try reflexivity; try lia.

Ltac unfold_classes :=
  cbv [isspace isalpha isupper_c islower_c isword isdigit upper_c lower_c
       is_ascii ascii_isspace ascii_isalpha ascii_isword ascii_isupper
       ascii_islower ascii_isdigit ascii_upper ascii_lower in_range].

Lemma upper_range (c : N) : ascii_isupper c = true -> 65 <= c <= 90.
Proof.
  unfold ascii_isupper, in_range. rewrite andb_true_iff, !N.leb_le. auto.
Qed.

Lemma upper_classes (c : N) :
  ascii_isupper c = true ->
  isspace c = false /\ isupper_c c = true /\ islower_c c = false
  /\ isword c = true /\ upper_c c = [c].
Proof.
  intros H%upper_range. unfold_classes. repeat split; nsolve.
Qed.

Lemma upper_caps (t : str) : forallb ascii_isupper t = true -> upper t = t.
Proof.
  unfold upper. induction t as [|c t IH]; cbn; auto.
  intros H. apply andb_true_iff in H as [Hc Ht].
  destruct (upper_classes c Hc) as (_ & _ & _ & _ & ->).
  cbn. rewrite IH; auto.
Qed.

Lemma str_in_caps (t : str) (keep l : list str) :
  forallb ascii_isupper t = true ->
  str_in t keep = false ->
  Forall (fun x => In x keep \/ length t <> length x
                   \/ forallb ascii_isupper x = false) l ->
  str_in t l = false.
Proof.
  intros Hu Hk. induction 1 as [|x l Hx Hl IH]; cbn; auto.
  change (existsb (str_eqb t) l) with (str_in t l). rewrite IH, orb_false_r.
  destruct (str_eqb t x) eqn:E; [|reflexivity].
  apply str_eqb_eq in E. subst x. destruct Hx as [Hx | [Hx | Hx]].
  - unfold str_in in Hk. rewrite <- Hk. symmetry. apply existsb_exists.
    exists t. split; [exact Hx | apply str_eqb_refl].
  - congruence.
  - congruence.
Qed.

(** X16. What the token filter does with a token of three or four capital
    letters: it is dropped, unless it is one of eight words. *)
Theorem keep_token_capitals (t : str) :
  forallb ascii_isupper t = true ->
  (3 <= length t <= 4)%nat ->
  keep_token t = None
  <-> str_in t (map py ["AND"; "FOR"; "MAIN"; "AUX"; "ICCP"; "MGPS"; "PLAN";
                        "ROOM"]%string) = false.
Proof.
  intros Hu Hlen. split.
  { intros H.
    destruct (str_in t _) eqn:E; [|reflexivity].
    apply str_in_In in E. cbn [map In] in E.
    decompose [or] E; try tauto; subst t; vm_compute in H; discriminate. }
  intros Hk.
  assert (forallb (fun c => negb (isspace c)) t = true) as Hws.
  { eapply forallb_impl; [|exact Hu]. intros c Hc.
    destruct (upper_classes c Hc) as (-> & _). reflexivity. }
  unfold keep_token. cbv zeta. rewrite (strip_word t Hws), (upper_caps t Hu).
  repeat rewrite (str_in_caps t _ _ Hu Hk)
    by (repeat (apply List.Forall_cons;
                [first [ left; cbn; tauto
                       | right; left; cbn; lia
                       | right; right; reflexivity ]|]);
        apply List.Forall_nil).
  assert (str_eqb t (py "V/D") = false) as ->.
  { destruct (str_eqb t (py "V/D")) eqn:E; [|reflexivity].
    apply str_eqb_eq in E. subst t. discriminate. }
  destruct t as [|c t]; [cbn in Hlen; lia|].
  cbn [forallb] in Hu. apply andb_true_iff in Hu as [Hc Ht].
  assert (re_fullmatch false (Rep (Cls [INonWord; ILit "_"]) 2 None) (c :: t)
          = None) as ->.
  { unfold re_fullmatch. cbn [rmatch rep_loop]. unfold one. cbn [st_rest].
    assert (cls_match false [INonWord; ILit "_"] c = false) as ->;
      [|reflexivity].
    cbn. destruct (upper_classes c Hc) as (_ & _ & _ & -> & _).
    apply upper_range in Hc. nsolve. }
  assert (forallb ascii_isupper (c :: t) = true) as Hu
    by (cbn; rewrite Hc, Ht; reflexivity).
  assert (isupper (c :: t) = true) as ->.
  { unfold isupper.
    rewrite (existsb_none ascii_isupper islower_c); [| |exact Hu].
    - cbn. destruct (upper_classes c Hc) as (_ & -> & _). reflexivity.
    - intros x Hx. destruct (upper_classes x Hx) as (_ & _ & -> & _).
      reflexivity. }
  set (w := c :: t) in *.
  assert (Nat.leb (length w) 2 = false) as -> by (apply Nat.leb_gt; lia).
  assert (Nat.leb 3 (length w) = true) as -> by (apply Nat.leb_le; lia).
  assert (Nat.leb (length w) 4 = true) as -> by (apply Nat.leb_le; lia).
  unfold re_found at 1, re_search.
  rewrite search_cls_none;
    [|eapply forallb_impl; [|exact Hu]; intros x Hx%upper_range;
      cbn; nsolve].
  reflexivity.
Qed.

(** ** The characters of a cleaned name *)

Lemma one_post (I : str -> Prop) (p : N -> bool) (st : mstate)
    (k : mstate -> option mstate) (res : mstate) :
  step_ok I p -> I (st_rest st) -> one p st k = Some res ->
  exists st', I (st_rest st') /\ k st' = Some res.
Proof.
  intros Hp HI. unfold one. destruct (st_rest st) as [|c s] eqn:E;
    [discriminate|].
  destruct (p c) eqn:Ep; [|discriminate]. intros Hk.
  eexists. split; [|exact Hk]. cbn. eapply Hp; eauto.
Qed.

Lemma rep_loop_post (I : str -> Prop)
    (m : mstate -> (mstate -> option mstate) -> option mstate) :
  (forall st k res, I (st_rest st) -> m st k = Some res ->
                    exists st', I (st_rest st') /\ k st' = Some res) ->
  forall fuel lo hi st k res,
    I (st_rest st) -> rep_loop m k fuel lo hi st = Some res ->
    exists st', I (st_rest st') /\ k st' = Some res.
Proof.
  intros Hm. induction fuel as [|fuel IH]; intros lo hi st k res HI H;
    [discriminate|].
  cbn [rep_loop] in H.
  assert (forall h,
    m st (fun st' => if Nat.ltb (st_pos st) (st_pos st')
                     then rep_loop m k fuel (Nat.pred lo) h st' else None)
    = Some res ->
    exists st', I (st_rest st') /\ k st' = Some res) as Hstep.
  { intros h Hh. apply Hm in Hh as (st1 & HI1 & H1); [|exact HI].
    destruct (Nat.ltb (st_pos st) (st_pos st1)); [|discriminate].
    eapply IH; eauto. }
  assert (match lo with O => k st | S _ => None end = Some res ->
          exists st', I (st_rest st') /\ k st' = Some res) as Hend.
  { destruct lo; [|discriminate]. intros Hk. exists st. auto. }
  destruct hi as [[|h]|].
  - auto.
  - destruct (m st _) eqn:Em; [|auto].
    injection H as ->. eapply Hstep, Em.
  - destruct (m st _) eqn:Em; [|auto].
    injection H as ->. eapply Hstep, Em.
Qed.

(** A match goes on from a tail of the text it started on. *)
Lemma rmatch_post (I : str -> Prop) (ic : bool) (r : re) :
  atoms_ok I ic r ->
  forall st k res,
    I (st_rest st) -> rmatch ic r st k = Some res ->
    exists st', I (st_rest st') /\ k st' = Some res.
Proof.
  induction r as [ |a| |l|l|r1 IH1 r2 IH2|r1 IH1 r2 IH2|r IH lo hi| | | |i r IH];
    cbn [atoms_ok rmatch]; intros Hok st k res HI H.
  - eauto.
  - eapply one_post; eauto.
  - eapply one_post; eauto.
  - eapply one_post; eauto.
  - eapply one_post; eauto.
  - destruct Hok as [H1 H2].
    apply IH1 in H as (st1 & HI1 & H); auto. eapply IH2; eauto.
  - destruct Hok as [H1 H2].
    destruct (rmatch ic r1 st k) eqn:E1.
    + injection H as ->. eapply IH1; eauto.
    + eapply IH2; eauto.
  - eapply (rep_loop_post I); eauto.
  - destruct (at_bol st); [eauto | discriminate].
  - destruct (at_eol st); [eauto | discriminate].
  - destruct (at_wb st); [eauto | discriminate].
  - apply IH in H as (st1 & HI1 & H); auto.
    eexists. split; [|exact H]. exact HI1.
Qed.

Lemma atoms_all (P : N -> bool) (ic : bool) (r : re) :
  atoms_ok (fun s => forallb P s = true) ic r.
Proof.
  assert (forall p, step_ok (fun s => forallb P s = true) p) as Hs.
  { intros p c s H _. cbn in H. apply andb_true_iff in H. tauto. }
  induction r; cbn [atoms_ok]; auto.
Qed.

Lemma match_here_rest (P : N -> bool) (ic : bool) (r : re)
    (prev : option N) (pos : nat) (s : str) (st : mstate) :
  forallb P s = true -> match_here ic r prev pos s = Some st ->
  forallb P (st_rest st) = true.
Proof.
  intros Hs H. unfold match_here in H.
  apply (rmatch_post (fun s => forallb P s = true)) in H
    as (st' & HI & [= ->]); auto using atoms_all.
Qed.

Lemma sub_from_forallb (P : N -> bool) (ic : bool) (r : re) (repl : str) :
  forallb P repl = true ->
  forall fuel prev pos s,
    forallb P s = true ->
    forallb P (sub_from fuel ic r repl prev pos s) = true.
Proof.
  intros Hr. induction fuel as [|fuel IH]; intros prev pos s Hs; auto.
  cbn [sub_from].
  assert (forallb P match s with
                    | [] => []
                    | c :: s' => c :: sub_from fuel ic r repl (Some c) (S pos) s'
                    end = true) as Hstep.
  { destruct s as [|c s]; [reflexivity|].
    cbn in Hs. apply andb_true_iff in Hs as [Hc Hs].
    cbn. rewrite Hc. apply IH, Hs. }
  destruct (match_here ic r prev pos s) as [st|] eqn:E; [|exact Hstep].
  apply (match_here_rest P) in E; [|exact Hs].
  destruct (Nat.ltb pos (st_pos st)); rewrite forallb_app, Hr; cbn [andb]; auto.
Qed.

(** A substitution brings in no character but those of the text and of the
    replacement. *)
Lemma re_sub_forallb (P : N -> bool) (ic : bool) (r : re) (repl s : str) :
  forallb P repl = true -> forallb P s = true ->
  forallb P (re_sub ic r repl s) = true.
Proof. intros. apply sub_from_forallb; auto. Qed.

Lemma ascii_strip (s : str) :
  forallb is_ascii s = true -> forallb is_ascii (strip s) = true.
Proof. apply forallb_strip_by. Qed.

Lemma ascii_normalize_text (s : str) :
  forallb is_ascii (normalize_text s) = true.
Proof.
  pose proof (normal_normalize_text s) as H. unfold normal in H.
  apply andb_true_iff in H as [H _]. apply andb_true_iff in H as [H _].
  exact H.
Qed.

Lemma ascii_normalize_title_terms (s : str) :
  forallb is_ascii (_normalize_title_terms s) = true.
Proof.
  unfold _normalize_title_terms. destruct s as [|c s]; [reflexivity|].
  apply forallb_squeeze; [reflexivity|].
  unfold apply_rules, term_rules. cbn [fold_left].
  repeat (apply re_sub_forallb; [reflexivity|]).
  apply ascii_normalize_text.
Qed.

Lemma ascii_clean_pass (s : str) : forallb is_ascii (clean_pass s) = true.
Proof.
  unfold clean_pass. apply ascii_strip, re_sub_forallb; [reflexivity|].
  apply ascii_normalize_title_terms.
Qed.

Lemma ascii_clean_loop (passes : nat) (s r : str) :
  clean_loop passes s = Some r -> forallb is_ascii r = true.
Proof.
  revert s. induction passes as [|n IH]; intros s H; [discriminate|].
  cbn [clean_loop] in H. destruct (str_eqb (clean_pass s) s); [|eauto].
  injection H as <-. apply ascii_clean_pass.
Qed.

Lemma ascii_upper_c (c : N) :
  is_ascii c = true -> forallb is_ascii (upper_c c) = true.
Proof.
  intros H. unfold upper_c. rewrite H. cbn. rewrite andb_true_r.
  unfold is_ascii in *. apply N.ltb_lt in H. apply N.ltb_lt.
  unfold ascii_upper. destruct (ascii_islower c); lia.
Qed.

Lemma ascii_lower_c (c : N) :
  is_ascii c = true -> forallb is_ascii (lower_c c) = true.
Proof.
  intros H. unfold lower_c. rewrite H. cbn. rewrite andb_true_r.
  unfold is_ascii in *. apply N.ltb_lt in H. apply N.ltb_lt.
  unfold ascii_lower. destruct (ascii_isupper c) eqn:E; [|lia].
  unfold ascii_isupper, in_range in E.
  apply andb_true_iff in E as [_ E]. apply N.leb_le in E. lia.
Qed.

Lemma ascii_flat_map (f : N -> str) (s : str) :
  (forall c, is_ascii c = true -> forallb is_ascii (f c) = true) ->
  forallb is_ascii s = true -> forallb is_ascii (flat_map f s) = true.
Proof.
  intros Hf. induction s as [|c s IH]; cbn; auto.
  intros H. apply andb_true_iff in H as [Hc Hs].
  rewrite forallb_app, Hf, IH; auto.
Qed.

Lemma ascii_capitalize (s : str) :
  forallb is_ascii s = true -> forallb is_ascii (capitalize s) = true.
Proof.
  destruct s as [|c s]; cbn; auto.
  intros H. apply andb_true_iff in H as [Hc Hs].
  rewrite forallb_app, ascii_upper_c by exact Hc.
  apply ascii_flat_map; auto using ascii_lower_c.
Qed.

Lemma split_ws_aux_forallb (P : N -> bool) (s : str) :
  forall cur,
    forallb P cur = true -> forallb P s = true ->
    Forall (fun w => forallb P w = true) (split_ws_aux cur s).
Proof.
  induction s as [|c s IH]; intros cur Hcur Hs; cbn [split_ws_aux].
  - destruct cur; constructor; [|constructor].
    rewrite forallb_rev. exact Hcur.
  - cbn in Hs. apply andb_true_iff in Hs as [Hc Hs].
    destruct (isspace c).
    + destruct cur; [apply IH; auto|].
      constructor; [rewrite forallb_rev; exact Hcur | apply IH; auto].
    + apply IH; auto. cbn. rewrite Hc, Hcur. reflexivity.
Qed.

Lemma join_forallb (P : N -> bool) (sep : str) (l : list str) :
  forallb P sep = true -> Forall (fun w => forallb P w = true) l ->
  forallb P (join sep l) = true.
Proof.
  intros Hsep. induction 1 as [|w l Hw Hl IH]; [reflexivity|].
  destruct l as [|w' l]; [exact Hw|].
  change (join sep (w :: w' :: l)) with (w ++ sep ++ join sep (w' :: l)).
  rewrite !forallb_app, Hw, Hsep, IH. reflexivity.
Qed.

Lemma ascii_smart_title (s : str) :
  forallb is_ascii s = true -> forallb is_ascii (smart_title s) = true.
Proof.
  intros H. unfold smart_title. apply re_sub_forallb; [reflexivity|].
  apply join_forallb; [reflexivity|].
  apply List.Forall_map.
  eapply List.Forall_impl; [|apply (split_ws_aux_forallb is_ascii s []); auto].
  intros w Hw. cbv beta zeta.
  destruct (str_in _ _); [apply ascii_flat_map; auto using ascii_upper_c|].
  destruct (_ && _); [exact Hw | apply ascii_capitalize, Hw].
Qed.

Lemma ascii_clean_finish (s : str) :
  forallb is_ascii s = true -> forallb is_ascii (clean_finish s) = true.
Proof.
  intros H. unfold clean_finish. cbv zeta.
  destruct (too_little _); [reflexivity|].
  apply ascii_smart_title, forallb_squeeze; [reflexivity|].
  repeat (apply ascii_strip, re_sub_forallb; [reflexivity|]).
  exact H.
Qed.

(** X17. Whatever the name given to it, non-ASCII letters included, a name
    that [clean_manual_name] returns is made of ASCII characters only. *)
Theorem clean_manual_name_ascii (passes : nat) (name cleaned : str) :
  clean_manual_name passes name = Some cleaned ->
  forallb is_ascii cleaned = true.
Proof.
  unfold clean_manual_name. destruct name as [|c s]; [intros [= <-]; reflexivity|].
  destruct (clean_loop _ _) as [r|] eqn:E; [|discriminate].
  intros [= <-]. eapply ascii_clean_finish, ascii_clean_loop, E.
Qed.

(** ** The first anchor *)

Lemma first_anchor_fold (up : str) (words : list str) :
  forall best,
    match fold_left (fun best w =>
                       match find w up with
                       | Some idx =>
                           match best with
                           | None => Some idx
                           | Some b => Some (Nat.min b idx)
                           end
                       | None => best
                       end) words best with
    | None => best = None /\ forall w, In w words -> find w up = None
    | Some b =>
        (best = Some b \/ exists w, In w words /\ find w up = Some b)
        /\ (forall b0, best = Some b0 -> (b <= b0)%nat)
        /\ (forall w i, In w words -> find w up = Some i -> (b <= i)%nat)
    end.
Proof.
  induction words as [|w words IH]; intros best; cbn [fold_left].
  - destruct best as [b|]; [|split; [reflexivity | intros w []]].
    split; [left; reflexivity|].
    split; [intros b0 [= ->]; lia | intros w i []].
  - match goal with |- context [fold_left ?f words ?b] =>
      specialize (IH b); destruct (fold_left f words b) as [r|] end.
    + destruct IH as (Hfrom & Hbest & Hall).
      destruct (find w up) as [idx|] eqn:Ew.
      * destruct best as [b|].
        -- split; [|split].
           ++ destruct Hfrom as [[= <-]|(w' & Hw' & E)].
              ** destruct (Nat.min_spec b idx) as [[_ ->]|[_ ->]];
                   [left; reflexivity | right; exists w; cbn; auto].
              ** right. exists w'. cbn. auto.
           ++ intros b0 [= <-]. specialize (Hbest _ eq_refl). lia.
           ++ intros w' i [<-|Hw'] E.
              ** rewrite Ew in E. injection E as <-.
                 specialize (Hbest _ eq_refl). lia.
              ** eauto.
        -- split; [|split].
           ++ right. destruct Hfrom as [[= <-]|(w' & Hw' & E)];
                [exists w | exists w']; cbn; auto.
           ++ discriminate.
           ++ intros w' i [<-|Hw'] E.
              ** rewrite Ew in E. injection E as <-.
                 apply (Hbest _ eq_refl).
              ** eauto.
      * split; [|split].
        -- destruct Hfrom as [?|(w' & Hw' & E)]; [left; assumption|].
           right. exists w'. cbn. auto.
        -- exact Hbest.
        -- intros w' i [<-|Hw'] E; [congruence | eauto].
    + destruct IH as (Hbest & Hall).
      destruct (find w up) as [idx|] eqn:Ew.
      * destruct best; discriminate.
      * split; [exact Hbest|]. intros w' [<-|Hw']; auto.
Qed.

(** The index that the loop over the anchor words ends with is the least
    index at which any of the words occurs in the text, and there is none
    exactly when no word occurs. *)
Lemma first_anchor_least (words : list str) (up : str) :
  match first_anchor words up with
  | Some best =>
      (exists w, In w words /\ find w up = Some best)
      /\ forall w idx, In w words -> find w up = Some idx -> (best <= idx)%nat
  | None => forall w, In w words -> find w up = None
  end.
Proof.
  unfold first_anchor.
  pose proof (first_anchor_fold up words None) as H.
  destruct (fold_left _ words None) as [b|].
  - destruct H as ([H|H] & _ & Hall); [discriminate|]. split; assumption.
  - apply H.
Qed.

(** X18. When [_slice_from_first_anchor] returns something else than the
    canonical form of its argument, the canonical form does not begin with
    V/D OF, and it was cut at the first place where any anchor word occurs
    in it, the part before that place being longer than twelve characters
    or less than 40 % letters. *)
Theorem slice_from_first_anchor_cut (s : str) :
  _slice_from_first_anchor s <> _normalize_title_terms s ->
  startswith (py "V/D OF") (upper (_normalize_title_terms s)) = false
  /\ exists w idx,
       In w ANCHOR_WORDS
       /\ find w (upper (_normalize_title_terms s)) = Some idx
       /\ (forall w' j, In w' ANCHOR_WORDS ->
             find w' (upper (_normalize_title_terms s)) = Some j ->
             (idx <= j)%nat)
       /\ (ratio_lt (_alpha_ratio (firstn idx (_normalize_title_terms s)))
             40 100 = true
           \/ (12 < length (firstn idx (_normalize_title_terms s)))%nat)
       /\ _slice_from_first_anchor s
          = strip (skipn idx (_normalize_title_terms s)).
Proof.
  unfold _slice_from_first_anchor. destruct s as [|c s]; [intros []; reflexivity|].
  cbv zeta. set (t := _normalize_title_terms (c :: s)).
  destruct (startswith (py "V/D OF") (upper t)); [intros []; reflexivity|].
  pose proof (first_anchor_least ANCHOR_WORDS (upper t)) as H.
  destruct (first_anchor ANCHOR_WORDS (upper t)) as [idx|];
    [|intros []; reflexivity].
  destruct H as ((w & Hw & Ew) & Hleast).
  destruct (ratio_lt _ 40 100 || Nat.ltb 12 _) eqn:E; [|intros []; reflexivity].
  intros _. split; [reflexivity|]. exists w, idx.
  repeat split; auto.
  apply orb_true_iff in E as [E|E]; [left; exact E|].
  right. apply Nat.ltb_lt, E.
Qed.

(** ** What [identify_manual_name] returns is a cleaned name *)

Section Returned.

Variable passes : nat.
Variable P : str -> Prop.
Hypothesis cleaned_P :
  forall cand r, clean_manual_name passes cand = Some r -> P r.

Lemma return_if_clean_P (gate : bool) (cand r : str) :
  return_if_clean passes gate cand = Some (Some r) -> P r.
Proof. intros H. apply return_if_clean_some in H as [H _]. eauto. Qed.

Lemma title_block_scan_P (r : str) :
  forall n ls, title_block_scan passes n ls = Some (Some r) -> P r.
Proof.
  induction n as [|n IH]; intros ls; [discriminate|].
  destruct ls as [|line rest]; [discriminate|]. cbn [title_block_scan].
  destruct (re_search true title_word line) as [[start m]|]; [|apply IH].
  intros H. apply or_else_some in H as [H|[_ H]]; [|eapply IH, H].
  eapply return_if_clean_P, H.
Qed.

Lemma merged_line_scan_P (r : str) :
  forall ls, merged_line_scan passes ls = Some (Some r) -> P r.
Proof.
  induction ls as [|line rest IH]; [discriminate|]. cbn [merged_line_scan].
  destruct (contains (py "TITLE") (upper line)
            && any_in merged_markers (upper line)); [|exact IH].
  intros H. apply or_else_some in H as [H|[_ H]]; [|exact (IH H)].
  eapply return_if_clean_P, H.
Qed.

Lemma keyword_try_P (line : str) (rest : list str) (r : str) :
  forall kws, keyword_try passes kws line rest = Some (Some r) -> P r.
Proof.
  induction kws as [|kw kws IH]; [discriminate|]. cbn [keyword_try].
  destruct (contains kw (upper line) && Nat.ltb (length line) 260);
    [|exact IH].
  intros H. apply or_else_some in H as [H|[_ H]]; [|exact (IH H)].
  eapply return_if_clean_P, H.
Qed.

Lemma keyword_scan_P (r : str) :
  forall n ls, keyword_scan passes n ls = Some (Some r) -> P r.
Proof.
  induction n as [|n IH]; intros ls; [discriminate|].
  destruct ls as [|line rest]; [discriminate|]. cbn [keyword_scan].
  destruct (_looks_like_stamp_or_revision (upper line)); [apply IH|].
  destruct (ratio_lt (_alpha_ratio line) 18 100
            && negb (re_found false three_letters line)); [apply IH|].
  intros H. apply or_else_some in H as [H|[_ H]]; [|eapply IH, H].
  eapply keyword_try_P, H.
Qed.

Lemma label_scan_P (text r : str) :
  forall pats, label_scan passes pats text = Some (Some r) -> P r.
Proof.
  induction pats as [|[label pat] pats IH]; [discriminate|].
  cbn [label_scan].
  destruct (re_search true pat text) as [[i m]|]; [|exact IH].
  intros H. apply or_else_some in H as [H|[_ H]]; [|exact (IH H)].
  eapply return_if_clean_P, H.
Qed.

Lemma metadata_title_P (metadata : option (gmap str str)) (r : str) :
  metadata_title passes metadata = Some (Some r) -> P r.
Proof.
  unfold metadata_title. destruct metadata as [md|]; [|discriminate].
  destruct (md !! py "/Title") as [[|c v]|]; try discriminate.
  destruct (Nat.ltb 5 (length (strip (c :: v))) && _); [|discriminate].
  apply return_if_clean_P.
Qed.

Lemma text_strategies_P (text filename : option str) (r : str) :
  text_strategies passes text filename = Some (Some r) -> P r.
Proof.
  unfold text_strategies. cbv zeta. intros H.
  apply or_else_some in H as [H|[_ H]].
  { unfold drawing_rule in H.
    destruct (is_drawing_prefix _); [|discriminate].
    destruct (Nat.leb 2 _); [|discriminate].
    eapply return_if_clean_P, H. }
  apply or_else_some in H as [H|[_ H]].
  { unfold vendor_rule in H. destruct (re_found true vd_of _); [|discriminate].
    eapply return_if_clean_P, H. }
  apply or_else_some in H as [H|[_ H]]; [eapply title_block_scan_P, H|].
  apply or_else_some in H as [H|[_ H]]; [eapply merged_line_scan_P, H|].
  apply or_else_some in H as [H|[_ H]]; [eapply keyword_scan_P, H|].
  eapply label_scan_P, H.
Qed.

Lemma identify_manual_name_P (text filename folder_path : option str)
    (metadata : option (gmap str str)) (r : str) :
  identify_manual_name passes text filename folder_path metadata = Some r ->
  P r.
Proof.
  unfold identify_manual_name.
  destruct (or_else (text_strategies passes text filename) _)
    as [[name|]|] eqn:E; [| |discriminate].
  - intros [= <-]. apply or_else_some in E as [E|[_ E]];
      [eapply text_strategies_P, E | eapply metadata_title_P, E].
  - unfold fallback. cbv zeta.
    destruct (clean_manual_name passes _) as [c|] eqn:Ec; [|discriminate].
    intros [= <-]. destruct c as [|x c]; apply (cleaned_P _ _ Ec).
Qed.

End Returned.

(** X19. Every name that [identify_manual_name] returns, by whichever of
    its strategies, is a result of [clean_manual_name], and is made of
    ASCII characters only. *)
Theorem identify_manual_name_cleaned (passes : nat)
    (text filename folder_path : option str)
    (metadata : option (gmap str str)) (r : str) :
  identify_manual_name passes text filename folder_path metadata = Some r ->
  (exists cand, clean_manual_name passes cand = Some r)
  /\ forallb is_ascii r = true.
Proof.
  apply (identify_manual_name_P passes
           (fun r => (exists cand, clean_manual_name passes cand = Some r)
                     /\ forallb is_ascii r = true)).
  intros cand c H. split; [eauto|].
  unfold clean_manual_name in H.
  destruct cand as [|x cand]; [injection H as <-; reflexivity|].
  destruct (clean_loop _ _) as [l|] eqn:E; [|discriminate].
  injection H as <-. eapply ascii_clean_finish, ascii_clean_loop, E.
Qed.

End Coverage.

(** ** The properties of the scan loop on three files *)

Lemma scan_counts_partition_witness :
  exists st,
    scan 10 scan_start
      [Extracted (py "ga.pdf") (py "/ship/docs") (py "ga.pdf")
         (py "GENERAL ARRANGEMENT OF ENGINE ROOM") ∅ (py "Success");
       Extracted (py "scan.pdf") (py "/ship/docs") (py "scan.pdf") [] ∅
         (py "Success");
       Extracted (py "old.doc") (py "/ship/docs") (py "old.doc") [] ∅
         (py "Skipped: .doc requires LibreOffice")]
    = Some st
    /\ processed (s_counts st) = 3%nat
    /\ length (s_results st) = 3%nat
    /\ processed (s_counts st)
       = (success (s_counts st) + unsupported (s_counts st)
          + ocr_missing (s_counts st) + error (s_counts st))%nat.
Proof.
  eexists. split; [vm_compute; reflexivity|].
  apply (scan_counts_partition 10
           [Extracted (py "ga.pdf") (py "/ship/docs") (py "ga.pdf")
              (py "GENERAL ARRANGEMENT OF ENGINE ROOM") ∅ (py "Success");
            Extracted (py "scan.pdf") (py "/ship/docs") (py "scan.pdf") [] ∅
              (py "Success");
            Extracted (py "old.doc") (py "/ship/docs") (py "old.doc") [] ∅
              (py "Skipped: .doc requires LibreOffice")]).
  vm_compute. reflexivity.
Defined.

Lemma scan_summary_agrees_witness :
  exists st,
    scan 10 scan_start
      [Extracted (py "ga.pdf") (py "/ship/docs") (py "ga.pdf")
         (py "GENERAL ARRANGEMENT OF ENGINE ROOM") ∅ (py "Success");
       Extracted (py "bad.pdf") (py "/ship/docs") (py "bad.pdf") [] ∅
         (py "Error: Skipped stream");
       Extracted (py "old.doc") (py "/ship/docs") (py "old.doc") [] ∅
         (py "Skipped: .doc requires LibreOffice")]
    = Some st
    /\ summary_success (s_results st) = success (s_counts st)
    /\ summary_skipped (s_results st)
       = (unsupported (s_counts st) + ocr_missing (s_counts st))%nat
    /\ summary_errors (s_results st)
       = (error (s_counts st)
          + length (List.filter
                      (fun r => noted (py "Skipped") r && noted (py "Error") r)
                      (s_results st)))%nat.
Proof.
  eexists. split; [vm_compute; reflexivity|].
  apply (scan_summary_agrees 10
           [Extracted (py "ga.pdf") (py "/ship/docs") (py "ga.pdf")
              (py "GENERAL ARRANGEMENT OF ENGINE ROOM") ∅ (py "Success");
            Extracted (py "bad.pdf") (py "/ship/docs") (py "bad.pdf") [] ∅
              (py "Error: Skipped stream");
            Extracted (py "old.doc") (py "/ship/docs") (py "old.doc") [] ∅
              (py "Skipped: .doc requires LibreOffice")]).
  vm_compute. reflexivity.
Defined.

Lemma scan_type_counts_witness :
  exists st,
    scan 10 scan_start
      [Extracted (py "ga.pdf") (py "/ship/docs") (py "ga.pdf")
         (py "GENERAL ARRANGEMENT OF ENGINE ROOM") ∅ (py "Success");
       Extracted (py "plan.pdf") (py "/ship/docs") (py "plan.pdf")
         (py "DOCKING PLAN") ∅ (py "Success");
       Extracted (py "old.doc") (py "/ship/docs") (py "old.doc") [] ∅
         (py "Skipped: .doc requires LibreOffice")]
    = Some st
    /\ default 0%nat (s_type_counts st !! py "Drawing")
       = length (List.filter (fun r => str_eqb (r_file_type r) (py "Drawing"))
                   (s_results st)).
Proof.
  eexists. split; [vm_compute; reflexivity|].
  apply (scan_type_counts 10
           [Extracted (py "ga.pdf") (py "/ship/docs") (py "ga.pdf")
              (py "GENERAL ARRANGEMENT OF ENGINE ROOM") ∅ (py "Success");
            Extracted (py "plan.pdf") (py "/ship/docs") (py "plan.pdf")
              (py "DOCKING PLAN") ∅ (py "Success");
            Extracted (py "old.doc") (py "/ship/docs") (py "old.doc") [] ∅
              (py "Skipped: .doc requires LibreOffice")]).
  vm_compute. reflexivity.
Defined.

Lemma scan_success_not_low_witness :
  exists st,
    scan 10 scan_start
      [Extracted (py "ga.pdf") (py "/ship/docs") (py "ga.pdf")
         (py "GENERAL ARRANGEMENT OF ENGINE ROOM") ∅ (py "Success");
       Extracted (py "scan.pdf") (py "/ship/docs") (py "scan.pdf") [] ∅
         (py "Success")]
    = Some st
    /\ Forall (fun r => r_notes r = py "Success" -> r_confidence r <> py "Low")
         (s_results st).
Proof.
  eexists. split; [vm_compute; reflexivity|].
  apply (scan_success_not_low 10
           [Extracted (py "ga.pdf") (py "/ship/docs") (py "ga.pdf")
              (py "GENERAL ARRANGEMENT OF ENGINE ROOM") ∅ (py "Success");
            Extracted (py "scan.pdf") (py "/ship/docs") (py "scan.pdf") [] ∅
              (py "Success")]).
  vm_compute. reflexivity.
Defined.

(** ** [extract_with_regex] on the patterns of the metadata *)


Lemma extract_with_regex_trimmed_witness :
  extract_with_regex (Some (py "Type :  X200  ")) METADATA_PATTERNS
  !! py "Model" = Some (py "X200")
  /\ strip (py "X200") = py "X200".
Proof.
  split; [vm_compute; reflexivity|].
  apply (extract_with_regex_trimmed (Some (py "Type :  X200  "))
           METADATA_PATTERNS (py "Model")).
  vm_compute. reflexivity.
Defined.

(** ** [classify_doc_type]: a drawing in a folder of manuals *)

Lemma classify_manual_wins_witness :
  any_in manual_words (lower (normalize_text (path_name (py "/ship/manuals"))))
  = true
  /\ classify_doc_type (Some (py "general arrangement drawing"))
       (Some (py "GA.pdf")) (py "/ship/manuals")
     = py "Machinery/System Manual".
Proof.
  split; [vm_compute; reflexivity|].
  apply classify_manual_wins. right. right. vm_compute. reflexivity.
Defined.

(** ** [identify_manual_name] on the file of a vendor drawing *)

Lemma vendor_rule_second_witness :
  identify_manual_name 10 (Some (py "TITLE: FUEL OIL SYSTEM PLAN"))
    (Some (py "V-D OF MAIN ENGINE COOLER.pdf")) (Some []) None
  = Some (py "V/D of MAIN Engine Cooler").
Proof.
  apply vendor_rule_second.
  - vm_compute. reflexivity.
  - vm_compute. reflexivity.
  - vm_compute. reflexivity.
  - discriminate.
Defined.

Lemma identify_manual_name_origin_witness :
  identify_manual_name 10 (Some []) (Some (py "x.pdf")) (Some (py "/ship/docs"))
    (Some {[ py "/Title" := py " MAIN ENGINE ARRANGEMENT " ]})
  = Some (py "MAIN Engine Arrangement")
  /\ _is_meaningful_title (py "MAIN Engine Arrangement") = true.
Proof.
  split; [vm_compute; reflexivity|].
  destruct (identify_manual_name_origin 10 (Some []) (Some (py "x.pdf"))
              (Some (py "/ship/docs"))
              (Some {[ py "/Title" := py " MAIN ENGINE ARRANGEMENT " ]})
              (py "MAIN Engine Arrangement"))
    as [H|[H|[H|H]]];
    [vm_compute; reflexivity | vm_compute in H; discriminate ..| exact H].
Defined.

Lemma keyword_try_set_witness :
  keyword_try 10 [py "PLAN"; py "LIST"] (py "PIPING PLAN OF ENGINE ROOM") []
  = keyword_try 10 [py "LIST"; py "PLAN"; py "PLAN"]
      (py "PIPING PLAN OF ENGINE ROOM") [].
Proof.
  apply keyword_try_set. intros kw. cbn. tauto.
Defined.

(** ** The token filter and the slice on examples *)

Lemma keep_token_capitals_witness :
  keep_token (py "PUMP") = None
  /\ keep_token (py "MAIN") <> None.
Proof.
  split.
  - apply keep_token_capitals; [reflexivity | cbn; lia | reflexivity].
  - intros H. apply keep_token_capitals in H;
      [discriminate | reflexivity | cbn; lia].
Defined.

Lemma clean_manual_name_ascii_witness :
  clean_manual_name 10 (233 :: py " MAIN ENGINE COOLER caf" ++ [233])
  = Some (py "MAIN Engine Cooler Caf")
  /\ forallb is_ascii (py "MAIN Engine Cooler Caf") = true.
Proof.
  split; [vm_compute; reflexivity|].
  apply (clean_manual_name_ascii 10
           (233 :: py " MAIN ENGINE COOLER caf" ++ [233])).
  vm_compute. reflexivity.
Defined.

Lemma slice_from_first_anchor_cut_witness :
  _slice_from_first_anchor (py "12345 678 MAIN ENGINE COOLER") = py "COOLER"
  /\ startswith (py "V/D OF")
       (upper (_normalize_title_terms (py "12345 678 MAIN ENGINE COOLER")))
     = false.
Proof.
  split; [vm_compute; reflexivity|].
  apply slice_from_first_anchor_cut.
  intros H. vm_compute in H. discriminate.
Defined.

Lemma identify_manual_name_cleaned_witness :
  identify_manual_name 10 (Some (py "GENERAL ARRANGEMENT OF ENGINE ROOM"))
    (Some (py "ga.pdf")) (Some (py "/ship/docs")) None
  = Some (py "General Arrangement Of Engine ROOM")
  /\ forallb is_ascii (py "General Arrangement Of Engine ROOM") = true.
Proof.
  split; [vm_compute; reflexivity|].
  apply (identify_manual_name_cleaned 10
           (Some (py "GENERAL ARRANGEMENT OF ENGINE ROOM"))
           (Some (py "ga.pdf")) (Some (py "/ship/docs")) None).
  vm_compute. reflexivity.
Defined.
